(** * SlittingGroove: contour synthesis of a slitting groove

    A shallow embedding of [pyroll/core/grooves/slitting.py].

    The class combines two elongation grooves (an outer one and a narrower
    inner one, both produced by a [template_groove_type]) into one
    symmetric contour, a piecewise depth function and a few derived
    measurements.

    Conventions of the embedding:
    - the numbers of the source (numpy [float64]) are kept abstract behind
      the operations the source applies to them ([scalar.ops]); results that
      depend on arithmetic identities are stated for number systems in which
      these operations are exact ([scalar.exact]), of which [Z] is an
      executable instance; [Float64.binary64] supplies the operations of
      the source's own numbers for the results that need no such identity;
    - an [N x 2] numpy array is a list of rows [(z, y)];
    - raising an exception is returning [inl], so every fallible function
      returns in [result];
    - the collaborators that are not part of the module (the groove
      template and the shapely geometry constructors) are parameters. *)

From Stdlib Require Import ZArith List String Ring.
From Stdlib Require PrimFloat.
From stdpp Require Import base gmap sets list sorting strings.

Local Open Scope string_scope.
Local Open Scope list_scope.

(** ** Numbers *)

Module scalar.

(** The operations the source applies to numbers: [+], [-], [*], unary
    minus, [np.abs], [==], [<], [<=]. The literals [0], [-1] and [2] are built
    from [zero] and [one]. *)
Class ops (F : Type) := {
  zero : F;
  one : F;
  add : F → F → F;
  sub : F → F → F;
  mul : F → F → F;
  opp : F → F;
  abs : F → F;
  eqb : F → F → bool;
  ltb : F → F → bool;
  leb : F → F → bool;
}.

(** [x >= y] *)
Definition geb `{ops F} (x y : F) : bool := leb y x.

(** The literal [2], and [x * -1] as written in [left_side[:, 0] *= -1]. *)
Definition two `{ops F} : F := add one one.
Definition negate `{ops F} (x : F) : F := mul x (opp one).

(** Exact arithmetic: a commutative ring with a total order that is
    compatible with addition, [<] the strict part of [<=], and [abs] the
    absolute value. *)
Class exact (F : Type) `{ops F} : Prop := {
  ring_laws : ring_theory zero one add mul sub opp (@eq F);
  leb_antisym x y : leb x y = true → leb y x = true → x = y;
  leb_trans x y z : leb x y = true → leb y z = true → leb x z = true;
  leb_total x y : leb x y = true ∨ leb y x = true;
  leb_add_r x y z : leb x y = true → leb (add x z) (add y z) = true;
  ltb_leb x y : ltb x y = negb (leb y x);
  abs_leb x : abs x = if leb zero x then x else opp x;
}.

(** The order alone: what the comparisons and the multiplication by [-1]
    obey without any exactness of [+]. Rounded arithmetic obeys these laws
    too; none of them mentions a sum. *)
Class ordered (F : Type) `{ops F} : Prop := {
  order_irrefl x : ltb x x = false;
  order_trans x y z : ltb x y = true → ltb y z = true → ltb x z = true;
  order_leb_ltb x y z : leb x y = true → ltb y z = true → ltb x z = true;
  order_ltb_leb x y : ltb x y = true → leb x y = true;
  order_negate x : ltb zero x = true → leb zero (negate x) = false;
}.

End scalar.

(** ** Exceptions *)

(** What a call can raise: numpy's [IndexError], Python's
    [AttributeError] (with the missing name), or whatever a collaborator
    raised, which is passed on as it is. *)
Inductive exn (E : Type) : Type :=
  | IndexError
  | AttributeError (name : string)
  | Raised (e : E).
Arguments IndexError {E}.
Arguments AttributeError {E} name.
Arguments Raised {E} e.

Abbreviation result E A := (sum (exn E) A).

#[global] Instance result_bind {X : Type} : MBind (sum X) :=
  λ A B f m, match m with inl e => inl e | inr a => f a end.
#[global] Instance result_ret {X : Type} : MRet (sum X) := λ A a, inr a.

(** A collaborator's own failure surfaces as that very exception. *)
Definition call {E A : Type} (r : E + A) : result E A :=
  match r with inl e => inl (Raised e) | inr a => inr a end.

(** ** The numpy operations the source uses *)

Module np.
Section arrays.
Context {A : Type}.

(** [a[mask]]: the rows of [a] at which [mask] is true, in order. *)
Fixpoint mask_select (mask : list bool) (a : list A) : list A :=
  match mask, a with
  | m :: mask', x :: a' =>
      if m then x :: mask_select mask' a' else mask_select mask' a'
  | _, _ => []
  end.

(** [y[mask] = vals]: the positions of [y] at which [mask] is true
    receive the elements of [vals], one after the other. numpy raises
    when [vals] has the wrong length; every caller below passes as many
    values as the mask selects, and positions left without a value are
    kept. *)
Fixpoint mask_assign (mask : list bool) (y vals : list A) : list A :=
  match mask, y with
  | m :: mask', y0 :: y' =>
      if m then
        match vals with
        | v :: vals' => v :: mask_assign mask' y' vals'
        | [] => y0 :: mask_assign mask' y' []
        end
      else y0 :: mask_assign mask' y' vals
  | _, _ => y
  end.

(** [a[:-1]], [a[1:]], [a[::-1]] and [np.concatenate([a, b])]. *)
Definition but_last (a : list A) : list A := take (length a - 1) a.
Definition from_1 (a : list A) : list A := drop 1 a.
Definition reversed (a : list A) : list A := rev a.
Definition concatenate (a b : list A) : list A := a ++ b.
End arrays.

Section columns.
Context {F : Type} `{scalar.ops F}.

(** [a[:, 0]] *)
Definition col0 (a : list (F * F)) : list F := map fst a.

(** [a[0, 0]]; raises [IndexError] on an array without rows. *)
Definition item00 {E} (a : list (F * F)) : result E F :=
  match a with
  | [] => inl IndexError
  | p :: _ => inr (fst p)
  end.

(** [a[:, 0] += c], [a[:, 1] += c] and [a[:, 0] *= -1], as the value
    of [a] afterwards. *)
Definition iadd_col0 (a : list (F * F)) (c : F) : list (F * F) :=
  map (λ p, (scalar.add (fst p) c, snd p)) a.
Definition iadd_col1 (a : list (F * F)) (c : F) : list (F * F) :=
  map (λ p, (fst p, scalar.add (snd p) c)) a.
Definition imul_col0_m1 (a : list (F * F)) : list (F * F) :=
  map (λ p, (scalar.negate (fst p), snd p)) a.

(** [np.piecewise(x, condlist, funclist)] on a one-dimensional [x]:
    start from [zeros_like(x)]; for each condition in turn, and only
    when it selects something, overwrite the selected positions with
    the function applied to the selected sub-array. *)
Definition piecewise (x : list F) (condlist : list (list bool))
    (funclist : list (list F → list F)) : list F :=
  fold_left
    (λ y cf,
       let vals := mask_select (fst cf) x in
       if (0 <? length vals)%nat
       then mask_assign (fst cf) y (snd cf vals)
       else y)
    (combine condlist funclist)
    (map (λ _, scalar.zero) x).

(** The same on a zero-dimensional [x] (a scalar query): [x[cond]] is
    the one-element array [[x]] or the empty array, and [y[cond] = v]
    stores the single value. *)
Definition piecewise0 (x : F) (condlist : list bool)
    (funclist : list (list F → list F)) : F :=
  fold_left
    (λ y cf,
       let vals := mask_select [fst cf] [x] in
       if (0 <? length vals)%nat
       then hd y (mask_assign [fst cf] [y] (snd cf vals))
       else y)
    (combine condlist funclist)
    scalar.zero.
End columns.
End np.

(** ** Collaborators *)

(** The two shapely constructors [__init__] calls, and the emptiness test
    behind [bool(line)]. Both constructors may raise. *)
Module shapely.
Class geometry (F E : Type) := {
  LineString : Type;
  Polygon : Type;
  mkLineString : list (F * F) → E + LineString;
  mkPolygon : LineString → E + Polygon;
  is_empty : LineString → bool;
}.
End shapely.

(** What [SlittingGroove] reads from a [GenericElongationGroove]: its
    contour (rows [(z, y)]), its depth function, three measurements and
    its classifiers. The depth function is vectorised: on an array it acts
    on each element ([local_depth_array]). *)
Module GenericElongationGroove.
Record t (F : Type) := {
  contour_points : list (F * F);
  local_depth : F → F;
  usable_width : F;
  z1 : F;
  depth : F;
  classifiers : gset string;
}.
Arguments contour_points {F} _.
Arguments local_depth {F} _ _.
Arguments usable_width {F} _.
Arguments z1 {F} _.
Arguments depth {F} _.
Arguments classifiers {F} _.

Definition local_depth_array {F} (g : t F) (z : list F) : list F :=
  map (local_depth g) z.
End GenericElongationGroove.

(** ** The class *)

Module SlittingGroove.
Section slitting.
Context {F E : Type} `{scalar.ops F} `{shapely.geometry F E}.

Abbreviation groove := (GenericElongationGroove.t F).
Abbreviation points := (list (F * F)).

(** A call of [template_groove_type] with keyword arguments: a dictionary
    from names to numbers goes in, a groove comes out or the call raises. *)
Definition template := gmap string F → E + groove.

Record t := {
  _outer_groove : groove;
  _inner_groove : groove;
  z_pass : F;
  _contour_points : points;
  _contour_line : shapely.LineString;
  _cross_section : shapely.Polygon;
  _classifiers : gset string;
}.

(** *** [__init__], statement by statement *)

(** [depth=depth, **kwargs] *)
Definition outer_kwargs (depth : F) (kwargs : gmap string F) : gmap string F :=
  <["depth" := depth]> kwargs.

(** [kwargs | dict(pad=0, rel_pad=0, pad_angle=0, depth=depth - separator_indent)]:
    the right operand of [|] wins. *)
Definition inner_kwargs (depth separator_indent : F) (kwargs : gmap string F)
    : gmap string F :=
  list_to_map
    [("pad", scalar.zero); ("rel_pad", scalar.zero); ("pad_angle", scalar.zero);
     ("depth", scalar.sub depth separator_indent)]
  ∪ kwargs.

(** [-self._inner_groove.contour_points[0, 0]] *)
Definition compute_z_pass (inner : groove) : result E F :=
  x ← np.item00 (GenericElongationGroove.contour_points inner);
  mret (scalar.opp x).

(** [outer_right_side], after [outer_right_side[:, 0] += self.z_pass] *)
Definition outer_right_side (outer : groove) (z_pass : F) : points :=
  let cp := GenericElongationGroove.contour_points outer in
  let selected :=
    np.mask_select (map (λ z, scalar.geb z scalar.zero) (np.col0 cp)) cp in
  np.iadd_col0 selected z_pass.

(** [inner_right_side], after the two in-place additions *)
Definition inner_right_side (inner : groove) (z_pass separator_indent : F)
    : points :=
  let cp := GenericElongationGroove.contour_points inner in
  let selected :=
    np.mask_select (map (λ z, scalar.leb z scalar.zero) (np.col0 cp)) cp in
  np.iadd_col1 (np.iadd_col0 selected z_pass) separator_indent.

(** [np.concatenate([inner_right_side[:-1], outer_right_side])] *)
Definition right_side (outer inner : groove) (z_pass separator_indent : F)
    : points :=
  np.concatenate
    (np.but_last (inner_right_side inner z_pass separator_indent))
    (outer_right_side outer z_pass).

(** [left_side = right_side[1:].copy(); left_side[:, 0] *= -1] *)
Definition left_side (right_side : points) : points :=
  np.imul_col0_m1 (np.from_1 right_side).

(** [np.concatenate([left_side[::-1], right_side])] *)
Definition build_contour (right_side : points) : points :=
  np.concatenate (np.reversed (left_side right_side)) right_side.

Definition __init__ (template_groove_type : template)
    (depth separator_indent : F) (kwargs : gmap string F) : result E t :=
  outer ← call (template_groove_type (outer_kwargs depth kwargs));
  inner ← call (template_groove_type (inner_kwargs depth separator_indent kwargs));
  zp ← compute_z_pass inner;
  let rs := right_side outer inner zp separator_indent in
  let contour := build_contour rs in
  line ← call (shapely.mkLineString contour);
  section ← call (shapely.mkPolygon line);
  mret {| _outer_groove := outer;
          _inner_groove := inner;
          z_pass := zp;
          _contour_points := contour;
          _contour_line := line;
          _cross_section := section;
          _classifiers := GenericElongationGroove.classifiers outer |}.

(** *** Properties and methods *)

Definition contour_points (self : t) : points := _contour_points self.
Definition contour_line (self : t) : shapely.LineString := _contour_line self.
Definition cross_section (self : t) : shapely.Polygon := _cross_section self.

(** [local_depth] on a scalar query ... *)
Definition local_depth (self : t) (z : F) : F :=
  let z := scalar.abs z in
  np.piecewise0 z
    [scalar.ltb (scalar.abs z) (z_pass self);
     scalar.geb (scalar.abs z) (z_pass self)]
    [GenericElongationGroove.local_depth_array (_inner_groove self);
     GenericElongationGroove.local_depth_array (_outer_groove self)].

(** ... and on an array of queries. *)
Definition local_depth_array (self : t) (z : list F) : list F :=
  let z := map scalar.abs z in
  np.piecewise z
    [map (λ a, scalar.ltb a (z_pass self)) (map scalar.abs z);
     map (λ a, scalar.geb a (z_pass self)) (map scalar.abs z)]
    [GenericElongationGroove.local_depth_array (_inner_groove self);
     GenericElongationGroove.local_depth_array (_outer_groove self)].

(** What both forms store for a query that has already been made
    non-negative: the later condition overwrites the earlier one, and a
    query that meets neither keeps the initial zero. *)
Definition depth_at (self : t) (a : F) : F :=
  if scalar.geb (scalar.abs a) (z_pass self)
  then GenericElongationGroove.local_depth (_outer_groove self) a
  else if scalar.ltb (scalar.abs a) (z_pass self)
       then GenericElongationGroove.local_depth (_inner_groove self) a
       else scalar.zero.

Definition classifiers (self : t) : gset string :=
  {["slitting"]} ∪ _classifiers self.

Definition usable_width (self : t) : F :=
  scalar.add (GenericElongationGroove.usable_width (_outer_groove self))
             (scalar.mul (z_pass self) scalar.two).

Definition width (self : t) : F :=
  scalar.mul (scalar.add (GenericElongationGroove.z1 (_outer_groove self))
                         (z_pass self))
             scalar.two.

Definition depth (self : t) : F :=
  GenericElongationGroove.depth (_outer_groove self).

(** *** [__attrs__] *)

(** The values [__attrs__] meets: a number, a set of tags, a line, or some
    other object, of which only the result of [bool(...)] matters. *)
Inductive value :=
  | VFloat (x : F)
  | VSet (s : gset string)
  | VLineString (l : shapely.LineString)
  | VOther (truth : bool).

(** [bool(v)] *)
Definition truthy (v : value) : bool :=
  match v with
  | VFloat x => negb (scalar.eqb x scalar.zero)
  | VSet s => bool_decide (s ≠ ∅)
  | VLineString l => negb (shapely.is_empty l)
  | VOther b => b
  end.

(** [getattr(self, n)] at the names [__attrs__] asks for. Four of them are
    properties of the class. The class defines no other of them and
    [__init__] stores none, so Python goes on to the base classes
    ([base_attrs], what [GrooveBase] provides under a name) and raises
    [AttributeError] when nothing is found there. *)
Definition getattr (base_attrs : string → option value) (self : t)
    (n : string) : result E value :=
  if String.eqb n "depth" then mret (VFloat (depth self))
  else if String.eqb n "usable_width" then mret (VFloat (usable_width self))
  else if String.eqb n "classifiers" then mret (VSet (classifiers self))
  else if String.eqb n "contour_line" then mret (VLineString (contour_line self))
  else match base_attrs n with
       | Some v => mret v
       | None => inl (AttributeError n)
       end.

(** [{n: v for n in names if (v := getattr(self, n))}], as the items of
    the dictionary in insertion order. *)
Fixpoint collect_attrs (base_attrs : string → option value) (self : t)
    (names : list string) : result E (list (string * value)) :=
  match names with
  | [] => mret []
  | n :: names' =>
      v ← getattr base_attrs self n;
      rest ← collect_attrs base_attrs self names';
      mret (if truthy v then (n, v) :: rest else rest)
  end.

Definition attr_names : list string :=
  ["depth"; "separator_indent"; "usable_width"; "classifiers"; "pad_angle";
   "contour_line"].

Definition __attrs__ (base_attrs : string → option value) (self : t)
    : result E (list (string * value)) :=
  collect_attrs base_attrs self attr_names.

End slitting.
End SlittingGroove.

(** ** An executable instance *)

(** Integers as exact numbers, lists of points as geometry, and two small
    groove templates to run the class on. *)
Module Zmodel.

#[global] Instance Z_ops : scalar.ops Z := {|
  scalar.zero := 0%Z;
  scalar.one := 1%Z;
  scalar.add := Z.add;
  scalar.sub := Z.sub;
  scalar.mul := Z.mul;
  scalar.opp := Z.opp;
  scalar.abs := Z.abs;
  scalar.eqb := Z.eqb;
  scalar.ltb := Z.ltb;
  scalar.leb := Z.leb;
|}.

(** A line is its coordinate list; a single point is no line, and fewer
    than three points enclose nothing. *)
#[global] Instance list_geometry : shapely.geometry Z string := {|
  shapely.LineString := list (Z * Z);
  shapely.Polygon := list (Z * Z);
  shapely.mkLineString pts :=
    if (length pts =? 1)%nat then inl "LineString: one point" else inr pts;
  shapely.mkPolygon line :=
    if (length line <? 3)%nat then inl "Polygon: too few points" else inr line;
  shapely.is_empty line := (length line =? 0)%nat;
|}.

(** A V-shaped groove of depth [d]: the tip at [(0, d)], the edges at
    [z = -(d - 5)] and [z = d - 5]. A depth that is missing or not above 5
    is rejected. *)
Definition vee_groove (d : Z) : GenericElongationGroove.t Z := {|
  GenericElongationGroove.contour_points := [(- (d - 5), 0); (0, d); (d - 5, 0)]%Z;
  GenericElongationGroove.local_depth := λ z, (d - Z.abs z)%Z;
  GenericElongationGroove.usable_width := (2 * (d - 5))%Z;
  GenericElongationGroove.z1 := (d - 5)%Z;
  GenericElongationGroove.depth := d;
  GenericElongationGroove.classifiers := {["generic_elongation"; "vee"]};
|}.

Definition vee : SlittingGroove.template (F := Z) (E := string) :=
  λ kw, match kw !! "depth" with
        | Some d => if (5 <? d)%Z then inr (vee_groove d) else inl "depth out of range"
        | None => inl "depth missing"
        end.

(** A template that hands out two prepared grooves: [inner] when
    [rel_pad] is among the keyword arguments (only the inner call passes
    it here), [outer] otherwise. *)
Definition prepared (outer inner : GenericElongationGroove.t Z)
    : SlittingGroove.template (F := Z) (E := string) :=
  λ kw, match kw !! "rel_pad" with
        | Some _ => inr inner
        | None => inr outer
        end.

(** A groove given by its contour alone. *)
Definition of_contour (cp : list (Z * Z)) : GenericElongationGroove.t Z := {|
  GenericElongationGroove.contour_points := cp;
  GenericElongationGroove.local_depth := λ _, 0%Z;
  GenericElongationGroove.usable_width := 0%Z;
  GenericElongationGroove.z1 := 0%Z;
  GenericElongationGroove.depth := 0%Z;
  GenericElongationGroove.classifiers := ∅;
|}.

(** The instance [SlittingGroove(vee, depth=10, separator_indent=2)]. *)
Definition example : SlittingGroove.t (F := Z) (E := string) := {|
  SlittingGroove._outer_groove := vee_groove 10;
  SlittingGroove._inner_groove := vee_groove 8;
  SlittingGroove.z_pass := 3%Z;
  SlittingGroove._contour_points := [(-8, 0); (-3, 10); (0, 2); (3, 10); (8, 0)]%Z;
  SlittingGroove._contour_line := [(-8, 0); (-3, 10); (0, 2); (3, 10); (8, 0)]%Z;
  SlittingGroove._cross_section := [(-8, 0); (-3, 10); (0, 2); (3, 10); (8, 0)]%Z;
  SlittingGroove._classifiers := {["generic_elongation"; "vee"]};
|}.

(** Two grooves without a contour point at [z = 0]: the inner one has a
    single point with [z <= 0]. *)
Definition lopsided_outer : GenericElongationGroove.t Z :=
  of_contour [(-5, 0); (0, 10); (5, 0)]%Z.
Definition lopsided_inner : GenericElongationGroove.t Z :=
  of_contour [(-3, 0); (3, 0)]%Z.

(** The instance [SlittingGroove(prepared(...), depth=10, separator_indent=2)]
    built from them. *)
Definition lopsided : SlittingGroove.t (F := Z) (E := string) := {|
  SlittingGroove._outer_groove := lopsided_outer;
  SlittingGroove._inner_groove := lopsided_inner;
  SlittingGroove.z_pass := 3%Z;
  SlittingGroove._contour_points := [(-8, 0); (3, 10); (8, 0)]%Z;
  SlittingGroove._contour_line := [(-8, 0); (3, 10); (8, 0)]%Z;
  SlittingGroove._cross_section := [(-8, 0); (3, 10); (8, 0)]%Z;
  SlittingGroove._classifiers := ∅;
|}.



(** An inner groove whose contour starts on the axis, and the instance
    [SlittingGroove(prepared(...), depth=10, separator_indent=2)] built
    from it and [lopsided_outer]: the pass line stays at [z = 0]. *)
Definition half_inner : GenericElongationGroove.t Z :=
  of_contour [(0, 8); (3, 0)]%Z.

Definition unshifted : SlittingGroove.t (F := Z) (E := string) := {|
  SlittingGroove._outer_groove := lopsided_outer;
  SlittingGroove._inner_groove := half_inner;
  SlittingGroove.z_pass := 0%Z;
  SlittingGroove._contour_points := [(-5, 0); (0, 10); (5, 0)]%Z;
  SlittingGroove._contour_line := [(-5, 0); (0, 10); (5, 0)]%Z;
  SlittingGroove._cross_section := [(-5, 0); (0, 10); (5, 0)]%Z;
  SlittingGroove._classifiers := ∅;
|}.

End Zmodel.

(** ** The specification's wording *)

(** The construction and the depth function as the specification describes
    them, on plain lists; the theorems below compare them with the class. *)
Module Spec.
Section spec.
Context {F : Type} `{scalar.ops F}.

Abbreviation points := (list (F * F)).

(** Translation of a point in [z] and in [y]; mirroring at [z = 0]. *)
Definition shift_z (c : F) (p : F * F) : F * F := (scalar.add (fst p) c, snd p).
Definition shift_y (c : F) (p : F * F) : F * F := (fst p, scalar.add (snd p) c).
Definition mirror (p : F * F) : F * F := (scalar.negate (fst p), snd p).

Definition innerRightSide (z_pass separatorIndent : F) (inner : points) : points :=
  map (λ p, shift_y separatorIndent (shift_z z_pass p))
      (List.filter (λ p, scalar.leb (fst p) scalar.zero) inner).

Definition outerRightSide (z_pass : F) (outer : points) : points :=
  map (shift_z z_pass)
      (List.filter (λ p, scalar.geb (fst p) scalar.zero) outer).

Definition rightSide (z_pass separatorIndent : F) (inner outer : points) : points :=
  removelast (innerRightSide z_pass separatorIndent inner)
  ++ outerRightSide z_pass outer.

Definition leftSide (rightSide : points) : points := map mirror (tail rightSide).

Definition compositeContour (rightSide : points) : points :=
  rev (leftSide rightSide) ++ rightSide.

(** The two-branch depth function on one query. *)
Definition localDepth (z_pass : F) (innerDepth outerDepth : F → F) (z : F) : F :=
  let az := scalar.abs z in
  if scalar.ltb az z_pass then innerDepth az else outerDepth az.

(** A contour [c] of length [n] is symmetric about [z = 0]: the point at
    index [n - 1 - i] is the point at index [i] with [z] negated. *)
Definition symmetric (c : points) : Prop :=
  ∀ i p, c !! i = Some p →
    c !! (length c - 1 - i) = Some (scalar.opp (fst p), snd p).

(** [p] occurs at exactly one index of [c]. *)
Definition occurs_once (p : F * F) (c : points) : Prop :=
  ∃ before after, c = before ++ p :: after ∧ (p ∉ before) ∧ (p ∉ after).

(** [p] lies strictly to the left of [q]. *)
Definition left_of (p q : F * F) : Prop := scalar.ltb (fst p) (fst q) = true.

(** The [z] coordinates grow strictly along the contour. *)
Fixpoint increasing (zs : list F) : bool :=
  match zs with
  | a :: (b :: _) as rest => scalar.ltb a b && increasing rest
  | _ => true
  end.

End spec.

Section failures.
Context {F E : Type} `{scalar.ops F} `{shapely.geometry F E}.

(** [__init__] consists of five steps that can raise: the two calls of the
    template, the read of the inner contour's first row, and the two
    geometry constructors. [init_step_raises ... x]: the steps before some
    step went through and that step raised [x]. *)
Inductive init_step_raises (tgt : SlittingGroove.template)
    (depth separator_indent : F) (kwargs : gmap string F) : exn E → Prop :=
  | outer_template_raises e :
      tgt (SlittingGroove.outer_kwargs depth kwargs) = inl e →
      init_step_raises tgt depth separator_indent kwargs (Raised e)
  | inner_template_raises outer e :
      tgt (SlittingGroove.outer_kwargs depth kwargs) = inr outer →
      tgt (SlittingGroove.inner_kwargs depth separator_indent kwargs) = inl e →
      init_step_raises tgt depth separator_indent kwargs (Raised e)
  | first_row_raises outer inner :
      tgt (SlittingGroove.outer_kwargs depth kwargs) = inr outer →
      tgt (SlittingGroove.inner_kwargs depth separator_indent kwargs) = inr inner →
      GenericElongationGroove.contour_points inner = [] →
      init_step_raises tgt depth separator_indent kwargs IndexError
  | line_string_raises outer inner zp e :
      tgt (SlittingGroove.outer_kwargs depth kwargs) = inr outer →
      tgt (SlittingGroove.inner_kwargs depth separator_indent kwargs) = inr inner →
      SlittingGroove.compute_z_pass (E := E) inner = inr zp →
      shapely.mkLineString
        (SlittingGroove.build_contour
           (SlittingGroove.right_side outer inner zp separator_indent)) = inl e →
      init_step_raises tgt depth separator_indent kwargs (Raised e)
  | polygon_raises outer inner zp line e :
      tgt (SlittingGroove.outer_kwargs depth kwargs) = inr outer →
      tgt (SlittingGroove.inner_kwargs depth separator_indent kwargs) = inr inner →
      SlittingGroove.compute_z_pass (E := E) inner = inr zp →
      shapely.mkLineString
        (SlittingGroove.build_contour
           (SlittingGroove.right_side outer inner zp separator_indent)) = inr line →
      shapely.mkPolygon line = inl e →
      init_step_raises tgt depth separator_indent kwargs (Raised e).

End failures.
End Spec.

(** ** The numbers of the source *)

(** IEEE 754 binary64 with its own operations, the [float64] of numpy.
    The comparisons with [nan] are all false. *)
Module Float64.
Import PrimFloat.

#[global] Instance binary64 : scalar.ops float := {|
  scalar.zero := 0%float;
  scalar.one := 1%float;
  scalar.add := PrimFloat.add;
  scalar.sub := PrimFloat.sub;
  scalar.mul := PrimFloat.mul;
  scalar.opp := PrimFloat.opp;
  scalar.abs := PrimFloat.abs;
  scalar.eqb := PrimFloat.eqb;
  scalar.ltb := PrimFloat.ltb;
  scalar.leb := PrimFloat.leb;
|}.

(** Lines and polygons as coordinate lists, as in [Zmodel]. *)
#[global] Instance float_geometry : shapely.geometry float string := {|
  shapely.LineString := list (float * float);
  shapely.Polygon := list (float * float);
  shapely.mkLineString pts :=
    if (length pts =? 1)%nat then inl "LineString: one point" else inr pts;
  shapely.mkPolygon line :=
    if (length line <? 3)%nat then inl "Polygon: too few points" else inr line;
  shapely.is_empty line := (length line =? 0)%nat;
|}.

(** A V-shaped groove of depth [d] and half width [w]. *)
Definition vee_groove (d w : float) : GenericElongationGroove.t float := {|
  GenericElongationGroove.contour_points := [(- w, 0); (0, d); (w, 0)]%float;
  GenericElongationGroove.local_depth := λ z, (d - abs z * (d / w))%float;
  GenericElongationGroove.usable_width := (2 * w)%float;
  GenericElongationGroove.z1 := w;
  GenericElongationGroove.depth := d;
  GenericElongationGroove.classifiers := {["generic_elongation"; "vee"]};
|}.

(** The slitting groove of an outer V of depth 10 and half width 5 and an
    inner V of depth 8 and half width 3, with [separator_indent = 2]. *)
Definition example : SlittingGroove.t (F := float) (E := string) := {|
  SlittingGroove._outer_groove := vee_groove 10 5;
  SlittingGroove._inner_groove := vee_groove 8 3;
  SlittingGroove.z_pass := 3%float;
  SlittingGroove._contour_points :=
    [(-8, 0); (-3, 10); (0, 2); (3, 10); (8, 0)]%float;
  SlittingGroove._contour_line :=
    [(-8, 0); (-3, 10); (0, 2); (3, 10); (8, 0)]%float;
  SlittingGroove._cross_section :=
    [(-8, 0); (-3, 10); (0, 2); (3, 10); (8, 0)]%float;
  SlittingGroove._classifiers := {["generic_elongation"; "vee"]};
|}.

(** A template for such grooves: half width [depth - 5]. *)
Definition vee : SlittingGroove.template (F := float) (E := string) :=
  λ kw, match kw !! "depth" with
        | Some d => inr (vee_groove d (d - 5))
        | None => inl "depth missing"
        end.

(** A template that hands out two prepared grooves, as in [Zmodel]. *)
Definition prepared (outer inner : GenericElongationGroove.t float)
    : SlittingGroove.template (F := float) (E := string) :=
  λ kw, match kw !! "rel_pad" with
        | Some _ => inr inner
        | None => inr outer
        end.

Definition of_contour (cp : list (float * float))
    : GenericElongationGroove.t float := {|
  GenericElongationGroove.contour_points := cp;
  GenericElongationGroove.local_depth := λ _, 0%float;
  GenericElongationGroove.usable_width := 0%float;
  GenericElongationGroove.z1 := 0%float;
  GenericElongationGroove.depth := 0%float;
  GenericElongationGroove.classifiers := ∅;
|}.

(** Two strictly increasing contours; the inner one has a point so close
    to the axis that the translation by [z_pass = 1] rounds it onto the
    next one. *)
Definition close_inner : GenericElongationGroove.t float :=
  of_contour [(-1, 0); (-0x1p-60, 8); (0, 8); (0x1p-60, 8); (1, 0)]%float.
Definition close_outer : GenericElongationGroove.t float :=
  of_contour [(-5, 0); (0, 10); (5, 0)]%float.

(** The instance [SlittingGroove(prepared(...), depth=10, separator_indent=2)]
    built from them. *)
Definition merged : SlittingGroove.t (F := float) (E := string) := {|
  SlittingGroove._outer_groove := close_outer;
  SlittingGroove._inner_groove := close_inner;
  SlittingGroove.z_pass := 1%float;
  SlittingGroove._contour_points :=
    [(-6, 0); (-1, 10); (-1, 10); (0, 2); (1, 10); (1, 10); (6, 0)]%float;
  SlittingGroove._contour_line :=
    [(-6, 0); (-1, 10); (-1, 10); (0, 2); (1, 10); (1, 10); (6, 0)]%float;
  SlittingGroove._cross_section :=
    [(-6, 0); (-1, 10); (-1, 10); (0, 2); (1, 10); (1, 10); (6, 0)]%float;
  SlittingGroove._classifiers := ∅;
|}.

Definition junction : float * float := (1, 10)%float.

(** Numbers of every kind, to run the order laws on. *)
Definition samples : list float :=
  [nan; neg_infinity; -0x1p1023; -1; -0x1p-60; -0x1p-1074; -0; 0;
   0x1p-1074; 0x1p-60; 1; 0x1.8p0; 10; 0x1p1023; infinity]%float.

(** The laws of [scalar.ordered] as checks on given numbers. *)
Definition order_laws_at (x y z : float) : bool :=
  negb (ltb x x)
  && implb (ltb x y && ltb y z) (ltb x z)
  && implb (leb x y && ltb y z) (ltb x z)
  && implb (ltb x y) (leb x y)
  && implb (ltb 0 x) (negb (leb 0 (x * -1))).

Definition order_laws_on (l : list float) : bool :=
  forallb (λ x, forallb (λ y, forallb (order_laws_at x y) l) l) l.

Definition not_a_number : float := nan.
Definition ten : float := 10%float.
Definition two : float := 2%float.

End Float64.

(** * Properties *)

(** ** numpy operations as list functions *)

Section np_facts.
Context {A : Type}.

Lemma mask_select_filter (f : A → bool) (a : list A) :
  np.mask_select (map f a) a = List.filter f a.
Proof.
  induction a as [|x a IH]; simpl; [done|].
  destruct (f x); by rewrite IH.
Qed.

Lemma but_last_removelast (a : list A) : np.but_last a = removelast a.
Proof.
  unfold np.but_last. rewrite removelast_firstn_len.
  by replace (length a - 1) with (Nat.pred (length a)) by lia.
Qed.

Lemma from_1_tail (a : list A) : np.from_1 a = tail a.
Proof. by destruct a as [|x [|y a]]. Qed.

(** Assigning [g] of the selected elements under the mask [p] computes,
    position by position, [g z] where [p z] holds and keeps [y] elsewhere. *)
Lemma mask_assign_select (p : A → bool) (g : A → A) (z y : list A) :
  length y = length z →
  np.mask_assign (map p z) y (map g (np.mask_select (map p z) z))
  = zip_with (λ zi yi, if p zi then g zi else yi) z y.
Proof.
  revert y. induction z as [|zi z IH]; intros [|yi y] Hlen; simplify_eq/=; [done|].
  destruct (p zi); simpl; by rewrite IH.
Qed.

Lemma mask_select_nothing (p : A → bool) (g : A → A) (z y : list A) :
  length y = length z →
  length (np.mask_select (map p z) z) = 0 →
  zip_with (λ zi yi, if p zi then g zi else yi) z y = y.
Proof.
  revert y. induction z as [|zi z IH]; intros [|yi y] Hlen Hsel; simplify_eq/=; [done|].
  destruct (p zi); simplify_eq/=. by rewrite IH.
Qed.

End np_facts.

(** ** Facts that need no arithmetic *)

(** Unfold the plumbing of [result]. *)
Ltac run_result :=
  unfold mbind, mret, result_bind, result_ret, call, np.item00 in *;
  cbv beta iota in *.

Section structure.
Context {F E : Type} `{scalar.ops F} `{shapely.geometry F E}.

Import SlittingGroove.

(** One round of [np.piecewise] with a vectorised function, elementwise. *)
Lemma piecewise_round (p : F → bool) (g : F → F) (z y : list F) :
  length y = length z →
  (let vals := np.mask_select (map p z) z in
   if (0 <? length vals)%nat
   then np.mask_assign (map p z) y (map g vals)
   else y)
  = zip_with (λ zi yi, if p zi then g zi else yi) z y.
Proof.
  intros Hlen. cbn zeta.
  destruct (0 <? length (np.mask_select (map p z) z))%nat eqn:Hsel.
  - by apply mask_assign_select.
  - symmetry. apply mask_select_nothing; [done|].
    apply Nat.ltb_ge in Hsel. lia.
Qed.

Lemma zip_with_map_r {X Y Z} (f : X → Y → Z) (h : X → Y) (l : list X) :
  zip_with f l (map h l) = map (λ a, f a (h a)) l.
Proof. induction l as [|a l IH]; simpl; [done|]. by rewrite IH. Qed.

Lemma local_depth_unfold (self : t) (z : F) :
  local_depth self z = depth_at self (scalar.abs z).
Proof.
  unfold local_depth, depth_at, np.piecewise0,
    GenericElongationGroove.local_depth_array.
  by destruct (scalar.ltb _ _), (scalar.geb _ _).
Qed.

Lemma local_depth_array_unfold (self : t) (z : list F) :
  local_depth_array self z = map (λ a, depth_at self (scalar.abs a)) z.
Proof.
  unfold local_depth_array, np.piecewise,
    GenericElongationGroove.local_depth_array.
  cbn [combine fold_left fst snd].
  rewrite !(map_map scalar.abs (λ a, _ a (z_pass self))).
  rewrite (piecewise_round (λ a, scalar.ltb (scalar.abs a) (z_pass self)))
    by (by rewrite !length_map).
  rewrite (piecewise_round (λ a, scalar.geb (scalar.abs a) (z_pass self)))
    by (by rewrite length_zip_with, !length_map, Nat.min_id).
  rewrite (zip_with_map_r _ (λ _, scalar.zero)), zip_with_map_r, map_map.
  done.
Qed.

(** What a successful [__init__] leaves in the instance. *)
Lemma init_inv (tgt : template) (depth separator_indent : F)
    (kwargs : gmap string F) (self : t) :
  __init__ tgt depth separator_indent kwargs = inr self →
  tgt (outer_kwargs depth kwargs) = inr (_outer_groove self)
  ∧ tgt (inner_kwargs depth separator_indent kwargs) = inr (_inner_groove self)
  ∧ compute_z_pass (E := E) (_inner_groove self) = inr (z_pass self)
  ∧ _contour_points self
    = build_contour (right_side (_outer_groove self) (_inner_groove self)
                                (z_pass self) separator_indent)
  ∧ shapely.mkLineString (_contour_points self) = inr (_contour_line self)
  ∧ shapely.mkPolygon (_contour_line self) = inr (_cross_section self)
  ∧ _classifiers self = GenericElongationGroove.classifiers (_outer_groove self).
Proof.
  unfold __init__. intros Hinit.
  destruct (tgt (outer_kwargs _ _)) as [e|outer]; [done|].
  destruct (tgt (inner_kwargs _ _ _)) as [e|inner]; [done|].
  run_result.
  destruct (compute_z_pass inner) as [e|zp] eqn:Hzp; [done|].
  destruct (shapely.mkLineString _) as [e|line] eqn:Hline; [done|].
  destruct (shapely.mkPolygon line) as [e|section] eqn:Hsection; [done|].
  by simplify_eq/=.
Qed.

Lemma compute_z_pass_inv (inner : GenericElongationGroove.t F) (zp : F) :
  compute_z_pass (E := E) inner = inr zp →
  ∃ p0 rest, GenericElongationGroove.contour_points inner = p0 :: rest
             ∧ zp = scalar.opp (fst p0).
Proof.
  unfold compute_z_pass.
  destruct (GenericElongationGroove.contour_points inner) as [|p0 rest];
    intros Hzp; run_result; simplify_eq.
  by exists p0, rest.
Qed.

(** The statements of [__init__] compute the lists of the specification. *)
Lemma right_side_spec (outer inner : GenericElongationGroove.t F) (zp si : F) :
  right_side outer inner zp si
  = Spec.rightSide zp si (GenericElongationGroove.contour_points inner)
                         (GenericElongationGroove.contour_points outer).
Proof.
  unfold right_side, inner_right_side, outer_right_side, Spec.rightSide,
    Spec.innerRightSide, Spec.outerRightSide, np.concatenate, np.col0,
    np.iadd_col0, np.iadd_col1.
  rewrite but_last_removelast, !map_map, !mask_select_filter.
  done.
Qed.

Lemma build_contour_spec (rs : list (F * F)) :
  build_contour rs = Spec.compositeContour rs.
Proof.
  unfold build_contour, left_side, Spec.compositeContour, Spec.leftSide,
    np.concatenate, np.reversed, np.imul_col0_m1.
  by rewrite from_1_tail.
Qed.

(** ** The claims that hold for any numbers *)

(** C1. The contour of a constructed instance is built as specified:
    [z_pass] is the negated [z] of the inner contour's first point;
    [rightSide] is the inner contour's points with [z <= 0], translated by
    [z_pass] in [z] and by [separator_indent] in [y], without the last one,
    followed by the outer contour's points with [z >= 0], translated by
    [z_pass] in [z]; [leftSide] is [rightSide] without its first point and
    with every [z] negated; the contour is the reversed [leftSide] followed
    by [rightSide]. The two grooves are those the template returned. *)
Theorem contour_construction (tgt : template) (depth separator_indent : F)
    (kwargs : gmap string F) (self : t) :
  __init__ tgt depth separator_indent kwargs = inr self →
  ∃ outer inner p0 rest,
    tgt (outer_kwargs depth kwargs) = inr outer
    ∧ tgt (inner_kwargs depth separator_indent kwargs) = inr inner
    ∧ GenericElongationGroove.contour_points inner = p0 :: rest
    ∧ z_pass self = scalar.opp (fst p0)
    ∧ let rightSide :=
        Spec.rightSide (z_pass self) separator_indent
          (GenericElongationGroove.contour_points inner)
          (GenericElongationGroove.contour_points outer) in
      contour_points self = rev (Spec.leftSide rightSide) ++ rightSide.
Proof.
  intros (Houter & Hinner & Hzp & Hcontour & _)%init_inv.
  apply compute_z_pass_inv in Hzp as (p0 & rest & Hcp & Hzp).
  exists (_outer_groove self), (_inner_groove self), p0, rest.
  repeat split; try done.
  cbn zeta. unfold contour_points.
  by rewrite Hcontour, right_side_spec, build_contour_spec.
Qed.

(** C5. [local_depth] on a batch of queries is [local_depth] on each
    query, in the same order; the result has the length of the batch, and
    a batch of one query holds what the scalar call returns. *)
Theorem local_depth_vectorized (self : t) (zs : list F) :
  local_depth_array self zs = map (local_depth self) zs
  ∧ length (local_depth_array self zs) = length zs
  ∧ ∀ z, local_depth_array self [z] = [local_depth self z].
Proof.
  assert (∀ l, local_depth_array self l = map (local_depth self) l) as Heq.
  { intros l. rewrite local_depth_array_unfold.
    apply map_ext. intros a. by rewrite local_depth_unfold. }
  split; [apply Heq|]. split; [by rewrite Heq, length_map|].
  intros z. by rewrite Heq.
Qed.

(** C7. The classifiers of a constructed instance are the union of
    [{"slitting"}] and the outer groove's classifiers; they contain
    ["slitting"] and include the outer groove's classifiers. *)
Theorem classifiers_union (tgt : template) (depth separator_indent : F)
    (kwargs : gmap string F) (self : t) :
  __init__ tgt depth separator_indent kwargs = inr self →
  ∃ outer,
    tgt (outer_kwargs depth kwargs) = inr outer
    ∧ classifiers self = {["slitting"]} ∪ GenericElongationGroove.classifiers outer
    ∧ "slitting" ∈ classifiers self
    ∧ GenericElongationGroove.classifiers outer ⊆ classifiers self.
Proof.
  intros (Houter & _ & _ & _ & _ & _ & Hcls)%init_inv.
  exists (_outer_groove self). unfold classifiers. rewrite Hcls.
  split; [done|]. split; [done|]. split.
  - apply elem_of_union_l. by apply elem_of_singleton.
  - apply union_subseteq_r.
Qed.

(** C8. [__init__] fails exactly when one of its steps raises, and then
    with that step's exception, unchanged: nothing is caught or translated,
    nothing is checked beforehand, and a failed construction returns no
    instance. *)
Theorem init_propagates_errors (tgt : template) (depth separator_indent : F)
    (kwargs : gmap string F) (x : exn E) :
  Spec.init_step_raises tgt depth separator_indent kwargs x
  ↔ __init__ tgt depth separator_indent kwargs = inl x.
Proof.
  unfold __init__. split.
  - intros [e He|outer e Ho He|outer inner Ho Hi Hcp
           |outer inner zp e Ho Hi Hzp He|outer inner zp line e Ho Hi Hzp Hl He].
    + by rewrite He.
    + by rewrite Ho, He.
    + rewrite Ho, Hi. unfold compute_z_pass, np.item00. run_result.
      by rewrite Hcp.
    + rewrite Ho, Hi. run_result. by rewrite Hzp, He.
    + rewrite Ho, Hi. run_result. by rewrite Hzp, Hl, He.
  - destruct (tgt (outer_kwargs _ _)) as [e|outer] eqn:Ho.
    { intros; run_result; simplify_eq. by constructor. }
    destruct (tgt (inner_kwargs _ _ _)) as [e|inner] eqn:Hi.
    { intros; run_result; simplify_eq. by econstructor 2. }
    run_result.
    destruct (compute_z_pass inner) as [e|zp] eqn:Hzp.
    { unfold compute_z_pass, np.item00 in Hzp.
      destruct (GenericElongationGroove.contour_points inner) eqn:Hcp;
        run_result; intros; simplify_eq.
      by econstructor 3. }
    destruct (shapely.mkLineString _) as [e|line] eqn:Hl.
    { intros; simplify_eq. by econstructor 4. }
    destruct (shapely.mkPolygon line) as [e|section] eqn:Hp; [|done].
    intros; simplify_eq. by econstructor 5.
Qed.

(** [getattr] at the six names of [__attrs__]. *)
Lemma getattr_own (base_attrs : string → option value) (self : t) :
  getattr (E := E) base_attrs self "depth" = inr (VFloat (depth self))
  ∧ getattr (E := E) base_attrs self "usable_width"
    = inr (VFloat (usable_width self))
  ∧ getattr (E := E) base_attrs self "classifiers"
    = inr (VSet (classifiers self))
  ∧ getattr (E := E) base_attrs self "contour_line"
    = inr (VLineString (contour_line self)).
Proof. by repeat split. Qed.

Lemma getattr_inherited (base_attrs : string → option value) (self : t) :
  getattr (E := E) base_attrs self "separator_indent"
  = match base_attrs "separator_indent" with
    | Some v => inr v
    | None => inl (AttributeError "separator_indent")
    end
  ∧ getattr (E := E) base_attrs self "pad_angle"
    = match base_attrs "pad_angle" with
      | Some v => inr v
      | None => inl (AttributeError "pad_angle")
      end.
Proof. by split. Qed.

(** Where [GrooveBase] supplies the two names the class does not define,
    [__attrs__] is the dictionary of the six attributes without the falsy
    ones. *)
Lemma attrs_with_base (base_attrs : string → option value) (self : t)
    (si pa : value) :
  base_attrs "separator_indent" = Some si →
  base_attrs "pad_angle" = Some pa →
  __attrs__ (E := E) base_attrs self
  = inr (List.filter (λ nv, truthy (snd nv))
           [("depth", VFloat (depth self));
            ("separator_indent", si);
            ("usable_width", VFloat (usable_width self));
            ("classifiers", VSet (classifiers self));
            ("pad_angle", pa);
            ("contour_line", VLineString (contour_line self))]).
Proof.
  intros Hsi Hpa.
  destruct (getattr_own base_attrs self) as (Hd & Hu & Hc & Hl).
  destruct (getattr_inherited base_attrs self) as (Hs & Hp).
  rewrite Hsi in Hs. rewrite Hpa in Hp.
  unfold __attrs__, attr_names. cbn [collect_attrs List.filter snd].
  rewrite Hd, Hs, Hu, Hc, Hp, Hl. run_result.
  by repeat (destruct (truthy _)).
Qed.

(** C9. The class neither defines nor stores [separator_indent]: unless
    the base class supplies it, [__attrs__] raises [AttributeError] on its
    second lookup and returns no dictionary at all. *)
Theorem attrs_raises_attribute_error (base_attrs : string → option value)
    (self : t) :
  base_attrs "separator_indent" = None →
  __attrs__ (E := E) base_attrs self = inl (AttributeError "separator_indent").
Proof.
  intros Hsi.
  destruct (getattr_own base_attrs self) as (Hd & _).
  destruct (getattr_inherited base_attrs self) as (Hs & _).
  rewrite Hsi in Hs.
  unfold __attrs__, attr_names. cbn [collect_attrs].
  rewrite Hd, Hs. by run_result.
Qed.

End structure.

(** ** Arithmetic in an exact number system *)

Section exact_facts.
Context {F : Type} `{scalar.exact F}.

Add Ring scalar_ring : scalar.ring_laws.

Lemma negate_opp (x : F) : scalar.negate x = scalar.opp x.
Proof. unfold scalar.negate. ring. Qed.

Lemma opp_opp (x : F) : scalar.opp (scalar.opp x) = x.
Proof. ring. Qed.

Lemma opp_zero : scalar.opp scalar.zero = scalar.zero :> F.
Proof. ring. Qed.

Lemma add_opp_diag (x : F) : scalar.add x (scalar.opp x) = scalar.zero.
Proof. ring. Qed.

Lemma add_zero_l (x : F) : scalar.add scalar.zero x = x.
Proof. ring. Qed.

Lemma mul_two_comm (x : F) : scalar.mul x scalar.two = scalar.mul scalar.two x.
Proof. ring. Qed.

Lemma leb_refl (x : F) : scalar.leb x x = true.
Proof. by destruct (scalar.leb_total x x). Qed.

(** Adding the same number on both sides neither creates nor destroys an
    inequality. *)
Lemma leb_add_cancel (x y z : F) :
  scalar.leb (scalar.add x z) (scalar.add y z) = scalar.leb x y.
Proof.
  apply eq_true_iff_eq. split; [|apply scalar.leb_add_r].
  intros Hle%(scalar.leb_add_r _ _ (scalar.opp z)).
  by replace (scalar.add (scalar.add x z) (scalar.opp z)) with x in Hle by ring;
    replace (scalar.add (scalar.add y z) (scalar.opp z)) with y in Hle by ring.
Qed.

Lemma ltb_add_cancel (x y z : F) :
  scalar.ltb (scalar.add x z) (scalar.add y z) = scalar.ltb x y.
Proof. by rewrite !scalar.ltb_leb, leb_add_cancel. Qed.

Lemma ltb_irrefl (x : F) : scalar.ltb x x = false.
Proof. by rewrite scalar.ltb_leb, leb_refl. Qed.

Lemma ltb_leb_incl (x y : F) : scalar.ltb x y = true → scalar.leb x y = true.
Proof.
  rewrite scalar.ltb_leb. intros Hlt%negb_true_iff.
  destruct (scalar.leb_total x y); congruence.
Qed.

Lemma leb_ltb_trans (x y z : F) :
  scalar.leb x y = true → scalar.ltb y z = true → scalar.ltb x z = true.
Proof.
  rewrite !scalar.ltb_leb, !negb_true_iff. intros Hxy Hyz.
  destruct (scalar.leb z x) eqn:Hzx; [|done].
  by rewrite (scalar.leb_trans z x y) in Hyz.
Qed.

Lemma ltb_leb_trans (x y z : F) :
  scalar.ltb x y = true → scalar.leb y z = true → scalar.ltb x z = true.
Proof.
  rewrite !scalar.ltb_leb, !negb_true_iff. intros Hxy Hyz.
  destruct (scalar.leb z x) eqn:Hzx; [|done].
  by rewrite (scalar.leb_trans y z x) in Hxy.
Qed.

Lemma ltb_trans (x y z : F) :
  scalar.ltb x y = true → scalar.ltb y z = true → scalar.ltb x z = true.
Proof. intros Hxy%ltb_leb_incl. by apply leb_ltb_trans. Qed.

Lemma leb_opp (x : F) :
  scalar.leb scalar.zero (scalar.opp x) = scalar.leb x scalar.zero.
Proof.
  rewrite <- (leb_add_cancel scalar.zero (scalar.opp x) x).
  by replace (scalar.add scalar.zero x) with x by ring;
    replace (scalar.add (scalar.opp x) x) with (scalar.zero : F) by ring.
Qed.

Lemma abs_opp (x : F) : scalar.abs (scalar.opp x) = scalar.abs x.
Proof.
  rewrite !scalar.abs_leb, leb_opp, opp_opp.
  destruct (scalar.leb x scalar.zero) eqn:Hx, (scalar.leb scalar.zero x) eqn:Hx';
    try done.
  - rewrite (scalar.leb_antisym _ _ Hx Hx'). apply opp_zero.
  - destruct (scalar.leb_total x scalar.zero); congruence.
Qed.

Lemma abs_nonneg (x : F) : scalar.leb scalar.zero (scalar.abs x) = true.
Proof.
  rewrite scalar.abs_leb.
  destruct (scalar.leb scalar.zero x) eqn:Hx; [done|].
  rewrite leb_opp. destruct (scalar.leb_total x scalar.zero); congruence.
Qed.

Lemma abs_abs (x : F) : scalar.abs (scalar.abs x) = scalar.abs x.
Proof. by rewrite (scalar.abs_leb (scalar.abs x)), abs_nonneg. Qed.

End exact_facts.

(** ** The claims that rest on exact arithmetic *)

Section exact_claims.
Context {F E : Type} `{scalar.exact F} `{shapely.geometry F E}.

Import SlittingGroove.

Lemma lookup_map {X Y} (f : X → Y) (l : list X) (i : nat) :
  map f l !! i = f <$> l !! i.
Proof. revert i. induction l as [|x l IH]; intros [|i]; simpl; auto. Qed.

(** Mirroring twice gives the point back, and a point on the axis is its
    own mirror image. *)
Lemma mirror_mirror (p : F * F) : Spec.mirror (Spec.mirror p) = p.
Proof.
  destruct p as [z y]. unfold Spec.mirror. simpl.
  by rewrite !negate_opp, opp_opp.
Qed.

Lemma mirror_axis (y : F) : Spec.mirror (scalar.zero, y) = (scalar.zero, y).
Proof. unfold Spec.mirror. simpl. by rewrite negate_opp, opp_zero. Qed.

(** A right side that starts on the axis, preceded by the reversed mirror
    image of its remainder, reads the same from both ends up to mirroring. *)
Lemma rev_composite (y : F) (rest : list (F * F)) :
  rev (Spec.compositeContour ((scalar.zero, y) :: rest))
  = map Spec.mirror (Spec.compositeContour ((scalar.zero, y) :: rest)).
Proof.
  unfold Spec.compositeContour, Spec.leftSide. simpl tail.
  rewrite rev_app_distr, rev_involutive, map_app, map_rev, map_map. simpl.
  rewrite mirror_axis, <- app_assoc. simpl. f_equal.
  rewrite (map_ext _ id) by apply mirror_mirror. by rewrite map_id.
Qed.

Lemma composite_symmetric (y : F) (rest : list (F * F)) :
  Spec.symmetric (Spec.compositeContour ((scalar.zero, y) :: rest)).
Proof.
  intros i p Hi.
  pose proof (lookup_lt_Some _ _ _ Hi) as Hlt.
  pose proof (rev_composite y rest) as Hrev.
  rewrite rev_alt in Hrev. fold (reverse (Spec.compositeContour ((scalar.zero, y) :: rest))) in Hrev.
  replace (_ - 1 - i) with (length (Spec.compositeContour ((scalar.zero, y) :: rest)) - S i) by lia.
  rewrite <- reverse_lookup, Hrev, lookup_map, Hi by done.
  simpl. unfold Spec.mirror. by rewrite negate_opp.
Qed.

Lemma composite_middle (y : F) (rest : list (F * F)) :
  length (Spec.compositeContour ((scalar.zero, y) :: rest))
  = (2 * length rest + 1)%nat
  ∧ Spec.compositeContour ((scalar.zero, y) :: rest) !! length rest
    = Some (scalar.zero, y).
Proof.
  unfold Spec.compositeContour, Spec.leftSide. simpl tail. split.
  - rewrite length_app, length_rev, length_map. simpl. lia.
  - rewrite lookup_app_r by (rewrite length_rev, length_map; lia).
    by rewrite length_rev, length_map, Nat.sub_diag.
Qed.

(** With a first inner point at [z <= 0] and a second inner point with
    [z <= 0] behind it, the right side starts on the axis. *)
Lemma right_side_starts_on_axis (si : F) (p0 : F * F) (rest outer : list (F * F)) :
  scalar.leb (fst p0) scalar.zero = true →
  (2 ≤ length (List.filter (λ p, scalar.leb (fst p) scalar.zero) (p0 :: rest)))%nat →
  ∃ y rs, Spec.rightSide (scalar.opp (fst p0)) si (p0 :: rest) outer
          = (scalar.zero, y) :: rs.
Proof.
  intros Hp0 Hlen. unfold Spec.rightSide, Spec.innerRightSide.
  simpl in *. rewrite Hp0 in *.
  destruct (List.filter _ rest) as [|p1 more]; simpl in *; [lia|].
  eexists _, _. unfold Spec.shift_y at 1, Spec.shift_z at 1. simpl.
  by rewrite add_opp_diag.
Qed.

(** C2. With [az = |z|], [local_depth] is the inner groove's depth at [az]
    when [az < z_pass] and the outer groove's depth at [az] when
    [az >= z_pass]; so it is the two-branch function of the specification,
    and at [az = z_pass] the outer branch applies. *)
Theorem local_depth_two_branches (self : t) (z : F) :
  let az := scalar.abs z in
  (scalar.ltb az (z_pass self) = true →
   local_depth self z = GenericElongationGroove.local_depth (_inner_groove self) az)
  ∧ (scalar.geb az (z_pass self) = true →
     local_depth self z = GenericElongationGroove.local_depth (_outer_groove self) az)
  ∧ (az = z_pass self →
     local_depth self z = GenericElongationGroove.local_depth (_outer_groove self) az)
  ∧ local_depth self z
    = Spec.localDepth (z_pass self)
        (GenericElongationGroove.local_depth (_inner_groove self))
        (GenericElongationGroove.local_depth (_outer_groove self)) z.
Proof.
  cbn zeta. rewrite local_depth_unfold. unfold depth_at, Spec.localDepth, scalar.geb.
  rewrite abs_abs, scalar.ltb_leb.
  repeat split.
  - by intros ->%negb_true_iff.
  - by intros ->.
  - intros <-. by rewrite leb_refl.
  - by destruct (scalar.leb _ _).
Qed.

(** C10. [local_depth] is even: a query and its negative get the same
    depth. *)
Theorem local_depth_even (self : t) (z : F) :
  local_depth self (scalar.opp z) = local_depth self z.
Proof. by rewrite !local_depth_unfold, abs_opp. Qed.

(** C4. The usable width of a constructed instance is the outer groove's
    usable width plus twice [z_pass], and [z_pass] is not negative when the
    inner contour's first point has [z <= 0]. *)
Theorem usable_width_relation (tgt : template) (depth separator_indent : F)
    (kwargs : gmap string F) (self : t) :
  __init__ tgt depth separator_indent kwargs = inr self →
  ∃ outer inner p0 rest,
    tgt (outer_kwargs depth kwargs) = inr outer
    ∧ tgt (inner_kwargs depth separator_indent kwargs) = inr inner
    ∧ GenericElongationGroove.contour_points inner = p0 :: rest
    ∧ usable_width self
      = scalar.add (GenericElongationGroove.usable_width outer)
                   (scalar.mul scalar.two (z_pass self))
    ∧ (scalar.leb (fst p0) scalar.zero = true →
       scalar.geb (z_pass self) scalar.zero = true).
Proof.
  intros (Houter & Hinner & Hzp & _)%init_inv.
  apply compute_z_pass_inv in Hzp as (p0 & rest & Hcp & Hzp).
  exists (_outer_groove self), (_inner_groove self), p0, rest.
  repeat split; try done.
  - unfold usable_width. by rewrite mul_two_comm.
  - intros Hp0. unfold scalar.geb. by rewrite Hzp, leb_opp.
Qed.

(** C3 (amended). When the inner contour starts at a point with [z <= 0]
    and has at least two points with [z <= 0], the contour of a constructed
    instance is symmetric about [z = 0]: the point at index [n - 1 - i] is
    the point at index [i] with [z] negated. The apex is stored once, so
    [n] is twice the length of the right side minus one, and the point at
    the middle index lies on the axis. *)
Theorem contour_symmetric (tgt : template) (depth separator_indent : F)
    (kwargs : gmap string F) (self : t) (p0 : F * F) (rest : list (F * F)) :
  __init__ tgt depth separator_indent kwargs = inr self →
  GenericElongationGroove.contour_points (_inner_groove self) = p0 :: rest →
  scalar.leb (fst p0) scalar.zero = true →
  (2 ≤ length (List.filter (λ p, scalar.leb (fst p) scalar.zero) (p0 :: rest)))%nat →
  let rightSide :=
    Spec.rightSide (z_pass self) separator_indent
      (GenericElongationGroove.contour_points (_inner_groove self))
      (GenericElongationGroove.contour_points (_outer_groove self)) in
  Spec.symmetric (contour_points self)
  ∧ length (contour_points self) = (2 * length rightSide - 1)%nat
  ∧ ∃ y, contour_points self !! (length rightSide - 1)%nat = Some (scalar.zero, y).
Proof.
  intros (_ & _ & Hzp & Hcontour & _)%init_inv Hcp Hp0 Htwo.
  apply compute_z_pass_inv in Hzp as (p0' & rest' & Hcp' & Hzp).
  rewrite Hcp in Hcp'. simplify_eq.
  cbn zeta. unfold contour_points.
  rewrite Hcontour, build_contour_spec, right_side_spec, Hzp, Hcp.
  destruct (right_side_starts_on_axis separator_indent p0' rest'
              (GenericElongationGroove.contour_points (_outer_groove self))
              Hp0 Htwo) as (y & rs & ->).
  destruct (composite_middle y rs) as [Hlen Hmid].
  split; [apply composite_symmetric|].
  split; [rewrite Hlen; simpl; lia|].
  exists y. simpl length. by rewrite Nat.sub_1_r.
Qed.

End exact_claims.

(** ** The seam *)

Section sorted_lists.
Context {X : Type} (R : relation X).

Lemma StronglySorted_list_filter (f : X → bool) (l : list X) :
  StronglySorted R l → StronglySorted R (List.filter f l).
Proof.
  induction 1 as [|a l Hl IH Ha]; simpl; [constructor|].
  destruct (f a); [|done]. constructor; [done|].
  rewrite Forall_forall in *. intros x [Hx _]%list_elem_of_In%filter_In.
  by apply Ha, list_elem_of_In.
Qed.

Lemma StronglySorted_map (g : X → X) (l : list X) :
  (∀ x y, R x y → R (g x) (g y)) →
  StronglySorted R l → StronglySorted R (map g l).
Proof.
  intros Hg. induction 1 as [|a l Hl IH Ha]; simpl; constructor; [done|].
  rewrite Forall_forall in *.
  intros y (x & <- & Hx)%list_elem_of_In%in_map_iff.
  by apply Hg, Ha, list_elem_of_In.
Qed.

End sorted_lists.

Section seam.
Context {F E : Type} `{scalar.exact F} `{shapely.geometry F E}.

Import SlittingGroove.

Lemma increasing_sorted (l : list (F * F)) :
  Spec.increasing (np.col0 l) = true → StronglySorted Spec.left_of l.
Proof.
  induction l as [|p l IH]; [constructor|].
  destruct l as [|q l]; [by repeat constructor|].
  unfold np.col0 in *. simpl. intros [Hpq Hrest]%andb_true_iff.
  specialize (IH Hrest). constructor; [done|].
  apply StronglySorted_cons in IH as [Hq _].
  constructor; [done|].
  eapply Forall_impl; [exact Hq|]. intros r Hqr.
  unfold Spec.left_of in *. by eapply ltb_trans.
Qed.

Lemma inner_right_side_spec (inner : GenericElongationGroove.t F) (zp si : F) :
  inner_right_side inner zp si
  = Spec.innerRightSide zp si (GenericElongationGroove.contour_points inner).
Proof.
  unfold inner_right_side, Spec.innerRightSide, np.col0, np.iadd_col0,
    np.iadd_col1.
  by rewrite !map_map, mask_select_filter.
Qed.

Lemma outer_right_side_spec (outer : GenericElongationGroove.t F) (zp : F) :
  outer_right_side outer zp
  = Spec.outerRightSide zp (GenericElongationGroove.contour_points outer).
Proof.
  unfold outer_right_side, Spec.outerRightSide, np.col0, np.iadd_col0.
  by rewrite !map_map, mask_select_filter.
Qed.

Lemma shift_left_of (zp si : F) (p q : F * F) :
  Spec.left_of p q →
  Spec.left_of (Spec.shift_y si (Spec.shift_z zp p))
               (Spec.shift_y si (Spec.shift_z zp q)).
Proof. unfold Spec.left_of. simpl. by rewrite ltb_add_cancel. Qed.

Lemma shift_z_left_of (zp : F) (p q : F * F) :
  Spec.left_of p q → Spec.left_of (Spec.shift_z zp p) (Spec.shift_z zp q).
Proof. unfold Spec.left_of. simpl. by rewrite ltb_add_cancel. Qed.

Lemma left_of_irrefl (p : F * F) : ¬ Spec.left_of p p.
Proof. unfold Spec.left_of. by rewrite ltb_irrefl. Qed.

(** Every point of the translated inner part lies at [z >= 0] when the
    contour is sorted and the translation is by its first point's [-z]. *)
Lemma inner_right_side_nonneg (si : F) (p0 : F * F) (rest : list (F * F))
    (q : F * F) :
  StronglySorted Spec.left_of (p0 :: rest) →
  q ∈ Spec.innerRightSide (scalar.opp (fst p0)) si (p0 :: rest) →
  scalar.leb scalar.zero (fst q) = true.
Proof.
  intros [Hp0 _]%StronglySorted_cons.
  unfold Spec.innerRightSide.
  intros (p & <- & [Hp _]%filter_In)%list_elem_of_In%in_map_iff.
  simpl. rewrite <- (add_opp_diag (fst p0)), leb_add_cancel.
  destruct Hp as [<-|Hp]; [apply leb_refl|].
  rewrite Forall_forall in Hp0. by apply ltb_leb_incl, Hp0, list_elem_of_In.
Qed.

(** The first inner point is at [z <= 0] as soon as some inner point is. *)
Lemma first_inner_nonpos (si zp : F) (p0 : F * F) (rest : list (F * F))
    (q : F * F) :
  StronglySorted Spec.left_of (p0 :: rest) →
  q ∈ Spec.innerRightSide zp si (p0 :: rest) →
  scalar.leb (fst p0) scalar.zero = true.
Proof.
  intros [Hp0 _]%StronglySorted_cons.
  unfold Spec.innerRightSide.
  intros (p & _ & [Hp Hle]%filter_In)%list_elem_of_In%in_map_iff.
  destruct Hp as [<-|Hp]; [done|].
  rewrite Forall_forall in Hp0.
  eapply scalar.leb_trans; [|exact Hle].
  by apply ltb_leb_incl, Hp0, list_elem_of_In.
Qed.

Lemma outer_right_side_nonneg (zp : F) (outer : list (F * F)) (q : F * F) :
  scalar.leb scalar.zero zp = true →
  q ∈ Spec.outerRightSide zp outer →
  scalar.leb scalar.zero (fst q) = true.
Proof.
  intros Hzp. unfold Spec.outerRightSide.
  intros (p & <- & [_ Hle]%filter_In)%list_elem_of_In%in_map_iff.
  simpl. eapply scalar.leb_trans; [exact Hzp|].
  unfold scalar.geb in Hle.
  rewrite <- (leb_add_cancel _ _ zp) in Hle.
  by rewrite add_zero_l in Hle.
Qed.

(** The seam on plain lists: sorted contours, the inner part ending in
    the point the outer part starts with. *)
Lemma seam_once_lists (si : F) (p0 J : F * F) (rest outer : list (F * F)) :
  let zp := scalar.opp (fst p0) in
  StronglySorted Spec.left_of (p0 :: rest) →
  StronglySorted Spec.left_of outer →
  last (Spec.innerRightSide zp si (p0 :: rest)) = Some J →
  head (Spec.outerRightSide zp outer) = Some J →
  Spec.occurs_once J
    (Spec.compositeContour (Spec.rightSide zp si (p0 :: rest) outer)).
Proof.
  intros zp Hinner Houter [irs Hirs]%last_Some [ors Hors]%head_Some.
  (* both translated parts are sorted *)
  assert (StronglySorted Spec.left_of (Spec.innerRightSide zp si (p0 :: rest)))
    as Hsi.
  { apply StronglySorted_map; [apply shift_left_of|].
    by apply StronglySorted_list_filter. }
  assert (StronglySorted Spec.left_of (Spec.outerRightSide zp outer)) as Hso.
  { apply StronglySorted_map; [apply shift_z_left_of|].
    by apply StronglySorted_list_filter. }
  (* all of the right side lies at z >= 0 *)
  assert (J ∈ Spec.innerRightSide zp si (p0 :: rest)) as HJin.
  { rewrite Hirs. apply elem_of_app. right. by apply list_elem_of_singleton. }
  assert (scalar.leb scalar.zero zp = true) as Hzp.
  { unfold zp. rewrite leb_opp. by eapply first_inner_nonpos. }
  assert (∀ q, q ∈ Spec.rightSide zp si (p0 :: rest) outer →
               scalar.leb scalar.zero (fst q) = true) as Hnonneg.
  { unfold Spec.rightSide. intros q [Hq|Hq]%elem_of_app.
    - apply (inner_right_side_nonneg si p0 rest); [done|].
      change (q ∈ Spec.innerRightSide zp si (p0 :: rest)).
      rewrite Hirs in Hq |- *. rewrite removelast_last in Hq.
      apply elem_of_app. by left.
    - by eapply outer_right_side_nonneg. }
  (* the right side is sorted as a whole *)
  assert (Spec.rightSide zp si (p0 :: rest) outer = irs ++ J :: ors) as Hrs.
  { unfold Spec.rightSide. by rewrite Hirs, removelast_last, Hors. }
  rewrite Hirs in Hsi. rewrite Hors in Hso.
  assert (∀ q, q ∈ irs → Spec.left_of q J) as Hbefore.
  { intros q Hq. eapply StronglySorted_app_1_elem_of; [exact Hsi|done|].
    by apply list_elem_of_singleton. }
  assert (∀ q, q ∈ ors → Spec.left_of J q) as Hafter.
  { apply StronglySorted_cons in Hso as [Hso _].
    by rewrite Forall_forall in Hso. }
  assert (StronglySorted Spec.left_of (irs ++ J :: ors)) as Hsorted.
  { apply StronglySorted_app_2; [|by eapply StronglySorted_app_1_l|done].
    intros x1 x2 Hx1 [->|Hx2]%elem_of_cons; [by apply Hbefore|].
    unfold Spec.left_of. eapply ltb_trans; [by apply Hbefore|by apply Hafter]. }
  (* behind its first point the right side lies at z > 0 *)
  assert (∀ q, q ∈ tail (irs ++ J :: ors) →
               scalar.ltb scalar.zero (fst q) = true) as Hpos.
  { rewrite Hrs in Hnonneg.
    destruct (irs ++ J :: ors) as [|h t]; simpl; [by intros q ?%elem_of_nil|].
    apply StronglySorted_cons in Hsorted as [Hh _].
    rewrite Forall_forall in Hh. intros q Hq.
    eapply leb_ltb_trans; [|by apply Hh].
    apply Hnonneg. by left. }
  rewrite Hrs in Hnonneg |- *.
  exists (rev (Spec.leftSide (irs ++ J :: ors)) ++ irs), ors.
  unfold Spec.compositeContour. split; [by rewrite <- app_assoc|].
  split; [|by intros ?%Hafter%left_of_irrefl].
  intros [HJ|HJ%Hbefore%left_of_irrefl]%elem_of_app; [|done].
  apply list_elem_of_In, in_rev, in_map_iff in HJ as (q & <- & Hq).
  apply list_elem_of_In, Hpos in Hq.
  assert (scalar.leb scalar.zero (fst (Spec.mirror q)) = true) as Hm.
  { apply Hnonneg. apply elem_of_app. right. by left. }
  unfold Spec.mirror in Hm. simpl in Hm.
  rewrite negate_opp, leb_opp in Hm.
  rewrite scalar.ltb_leb, Hm in Hq. done.
Qed.

(** In exact arithmetic the order of the groove contours is enough: when
    both are strictly increasing in [z] and the translated last point of
    the inner part is the translated first point of the outer part, that
    point occurs at exactly one index of the contour of a constructed
    instance. *)
Theorem seam_point_once (tgt : template) (depth separator_indent : F)
    (kwargs : gmap string F) (self : t) (J : F * F) :
  __init__ tgt depth separator_indent kwargs = inr self →
  Spec.increasing
    (np.col0 (GenericElongationGroove.contour_points (_inner_groove self))) = true →
  Spec.increasing
    (np.col0 (GenericElongationGroove.contour_points (_outer_groove self))) = true →
  last (inner_right_side (_inner_groove self) (z_pass self) separator_indent)
  = Some J →
  head (outer_right_side (_outer_groove self) (z_pass self)) = Some J →
  Spec.occurs_once J (contour_points self).
Proof.
  intros (_ & _ & Hzp & Hcontour & _)%init_inv
    Hinner%increasing_sorted Houter%increasing_sorted.
  apply compute_z_pass_inv in Hzp as (p0 & rest & Hcp & Hzp).
  rewrite inner_right_side_spec, outer_right_side_spec, Hcp, Hzp.
  intros Hlast Hhead. unfold contour_points.
  rewrite Hcontour, build_contour_spec, right_side_spec, Hcp, Hzp.
  rewrite Hcp in Hinner. by apply seam_once_lists.
Qed.

End seam.

(** ** The seam under rounding *)

(** Exact numbers obey the order laws. *)
#[global] Instance exact_ordered {F : Type} `{scalar.exact F} : scalar.ordered F.
Proof.
  split.
  - apply ltb_irrefl.
  - apply ltb_trans.
  - apply leb_ltb_trans.
  - apply ltb_leb_incl.
  - intros x. rewrite negate_opp, leb_opp, scalar.ltb_leb.
    by intros ->%negb_true_iff.
Qed.

Section seam_order.
Context {F E : Type} `{scalar.ordered F} `{shapely.geometry F E}.

Import SlittingGroove.




End seam_order.

(** ** Further properties of the construction *)

Section construction.
Context {F E : Type} `{scalar.ops F} `{shapely.geometry F E}.

Import SlittingGroove.

(** The keyword arguments of the two template calls. The outer call gets
    the caller's arguments with [depth] added. The inner call gets them
    with [pad], [rel_pad] and [pad_angle] forced to zero, whatever the
    caller passed under these names, and with [depth] reduced by
    [separator_indent]; every other argument reaches both calls as the
    caller gave it. *)
Theorem template_kwargs (depth separator_indent : F) (kwargs : gmap string F) :
  outer_kwargs depth kwargs !! "depth" = Some depth
  ∧ inner_kwargs depth separator_indent kwargs !! "depth"
    = Some (scalar.sub depth separator_indent)
  ∧ inner_kwargs depth separator_indent kwargs !! "pad" = Some scalar.zero
  ∧ inner_kwargs depth separator_indent kwargs !! "rel_pad" = Some scalar.zero
  ∧ inner_kwargs depth separator_indent kwargs !! "pad_angle" = Some scalar.zero
  ∧ ∀ k, k ≠ "depth" →
      outer_kwargs depth kwargs !! k = kwargs !! k
      ∧ (k ≠ "pad" → k ≠ "rel_pad" → k ≠ "pad_angle" →
         inner_kwargs depth separator_indent kwargs !! k = kwargs !! k).
Proof.
  unfold outer_kwargs, inner_kwargs, list_to_map. cbn [foldr uncurry fst snd].
  split; [apply lookup_insert_eq|].
  split.
  { apply lookup_union_Some_l.
    do 3 (rewrite lookup_insert_ne by done). apply lookup_insert_eq. }
  split; [apply lookup_union_Some_l; apply lookup_insert_eq|].
  split.
  { apply lookup_union_Some_l.
    rewrite lookup_insert_ne by done. apply lookup_insert_eq. }
  split.
  { apply lookup_union_Some_l.
    do 2 (rewrite lookup_insert_ne by done). apply lookup_insert_eq. }
  intros k Hd. split; [by rewrite lookup_insert_ne|].
  intros Hp Hr Ha. apply lookup_union_r.
  do 4 (rewrite lookup_insert_ne by done). apply lookup_empty.
Qed.

Lemma contour_of_init (tgt : template) (depth separator_indent : F)
    (kwargs : gmap string F) (self : t) :
  __init__ tgt depth separator_indent kwargs = inr self →
  contour_points self
  = Spec.compositeContour
      (Spec.rightSide (z_pass self) separator_indent
         (GenericElongationGroove.contour_points (_inner_groove self))
         (GenericElongationGroove.contour_points (_outer_groove self))).
Proof.
  intros (_ & _ & _ & Hcontour & _)%init_inv. unfold contour_points.
  by rewrite Hcontour, build_contour_spec, right_side_spec.
Qed.

Lemma length_removelast {X} (l : list X) :
  length (removelast l) = (length l - 1)%nat.
Proof.
  induction l as [|x [|y l] IH]; [done..|].
  change (S (length (removelast (y :: l))) = (length (x :: y :: l) - 1)%nat).
  rewrite IH. simpl. lia.
Qed.

Lemma length_tail_pred {X} (l : list X) : length (tail l) = (length l - 1)%nat.
Proof. destruct l; simpl; lia. Qed.

(** The number of contour points. With [k_in] inner points at [z <= 0] and
    [k_out] outer points at [z >= 0], the right side has
    [r = (k_in - 1) + k_out] points and the contour [2 r - 1], the
    subtractions stopping at zero: no point on either side gives the empty
    contour. *)
Theorem contour_length (tgt : template) (depth separator_indent : F)
    (kwargs : gmap string F) (self : t) :
  __init__ tgt depth separator_indent kwargs = inr self →
  let k_in :=
    length (List.filter (λ p, scalar.leb (fst p) scalar.zero)
              (GenericElongationGroove.contour_points (_inner_groove self))) in
  let k_out :=
    length (List.filter (λ p, scalar.geb (fst p) scalar.zero)
              (GenericElongationGroove.contour_points (_outer_groove self))) in
  length (contour_points self) = (2 * ((k_in - 1) + k_out) - 1)%nat.
Proof.
  intros ->%contour_of_init. cbn zeta.
  unfold Spec.compositeContour, Spec.leftSide, Spec.rightSide,
    Spec.innerRightSide, Spec.outerRightSide.
  rewrite length_app, length_rev, length_map, length_tail_pred, !length_app,
    length_removelast, !length_map.
  lia.
Qed.

(** The left half mirrors the right half, for any two contours and any
    numbers: the point at index [i] before the middle is the point at index
    [n - 1 - i] with its [z] multiplied by [-1]. *)
Theorem contour_left_mirrors_right (tgt : template) (depth separator_indent : F)
    (kwargs : gmap string F) (self : t) (i : nat) :
  __init__ tgt depth separator_indent kwargs = inr self →
  (2 * i + 1 < length (contour_points self))%nat →
  contour_points self !! i
  = Spec.mirror <$> contour_points self !! (length (contour_points self) - 1 - i)%nat.
Proof.
  intros ->%contour_of_init.
  destruct (Spec.rightSide _ _ _ _) as [|h t]; [simpl; lia|].
  unfold Spec.compositeContour, Spec.leftSide. simpl tail.
  rewrite length_app, length_rev, length_map. simpl length. intros Hi.
  rewrite lookup_app_l by (rewrite length_rev, length_map; lia).
  rewrite lookup_app_r by (rewrite length_rev, length_map; lia).
  rewrite length_rev, length_map.
  rewrite rev_alt. fold (reverse (map Spec.mirror t)).
  rewrite reverse_lookup by (rewrite length_map; lia).
  rewrite length_map, lookup_map.
  replace (length t + S (length t) - 1 - i - length t)%nat
    with (S (length t - S i)) by lia.
  done.
Qed.

Lemma In_removelast {X} (x : X) (l : list X) : In x (removelast l) → In x l.
Proof.
  induction l as [|y [|y' l] IH]; [done..|].
  intros [->|Hx]; [by left|]. right. by apply IH.
Qed.

(** Where every contour point comes from: it is an inner point with
    [z <= 0], translated by [z_pass] in [z] and by [separator_indent] in
    [y], or an outer point with [z >= 0], translated by [z_pass] in [z], or
    the mirror image of such a point. *)
Theorem contour_points_origin (tgt : template) (depth separator_indent : F)
    (kwargs : gmap string F) (self : t) (p : F * F) :
  __init__ tgt depth separator_indent kwargs = inr self →
  p ∈ contour_points self →
  ∃ q b,
    (q ∈ GenericElongationGroove.contour_points (_inner_groove self)
     ∧ scalar.leb (fst q) scalar.zero = true
     ∧ b = (scalar.add (fst q) (z_pass self), scalar.add (snd q) separator_indent)
     ∨ q ∈ GenericElongationGroove.contour_points (_outer_groove self)
       ∧ scalar.geb (fst q) scalar.zero = true
       ∧ b = (scalar.add (fst q) (z_pass self), snd q))
    ∧ (p = b ∨ p = (scalar.negate (fst b), snd b)).
Proof.
  intros ->%contour_of_init.
  assert (∀ b, b ∈ Spec.rightSide (z_pass self) separator_indent
                     (GenericElongationGroove.contour_points (_inner_groove self))
                     (GenericElongationGroove.contour_points (_outer_groove self)) →
          ∃ q,
            q ∈ GenericElongationGroove.contour_points (_inner_groove self)
            ∧ scalar.leb (fst q) scalar.zero = true
            ∧ b = (scalar.add (fst q) (z_pass self),
                   scalar.add (snd q) separator_indent)
            ∨ q ∈ GenericElongationGroove.contour_points (_outer_groove self)
              ∧ scalar.geb (fst q) scalar.zero = true
              ∧ b = (scalar.add (fst q) (z_pass self), snd q)) as Hright.
  { unfold Spec.rightSide, Spec.innerRightSide, Spec.outerRightSide.
    intros b [Hb|Hb]%elem_of_app.
    - apply list_elem_of_In, In_removelast, in_map_iff in Hb
        as (q & <- & [Hq Hle]%filter_In).
      exists q. left. by rewrite list_elem_of_In.
    - apply list_elem_of_In, in_map_iff in Hb as (q & <- & [Hq Hle]%filter_In).
      exists q. right. by rewrite list_elem_of_In. }
  unfold Spec.compositeContour, Spec.leftSide.
  intros [Hp|Hp]%elem_of_app.
  - apply list_elem_of_In, in_rev, in_map_iff in Hp as (b & <- & Hb).
    assert (b ∈ Spec.rightSide (z_pass self) separator_indent
                  (GenericElongationGroove.contour_points (_inner_groove self))
                  (GenericElongationGroove.contour_points (_outer_groove self)))
      as Hb'.
    { destruct (Spec.rightSide _ _ _ _); [done|].
      apply list_elem_of_In. by right. }
    destruct (Hright b Hb') as (q & Hq). exists q, b. split; [done|by right].
  - destruct (Hright p Hp) as (q & Hq). exists q, p. split; [done|by left].
Qed.


(** A query that is neither below [z_pass] nor at or above it keeps the
    zero [np.piecewise] starts from, whatever the two grooves say. *)
Theorem local_depth_default (self : t) (z : F) :
  scalar.ltb (scalar.abs (scalar.abs z)) (z_pass self) = false →
  scalar.geb (scalar.abs (scalar.abs z)) (z_pass self) = false →
  local_depth self z = scalar.zero
  ∧ local_depth_array self [z] = [scalar.zero].
Proof.
  intros Hlt Hge.
  rewrite local_depth_array_unfold, local_depth_unfold. unfold depth_at. simpl.
  by rewrite Hlt, Hge.
Qed.

(** The cached geometry of a constructed instance belongs together: the
    line is what [LineString] returned for the contour points, the cross
    section what [Polygon] returned for that line, and [depth] is the depth
    of the groove the template returned for the caller's own [depth], not
    reduced by [separator_indent]. *)
Theorem cached_geometry (tgt : template) (depth0 separator_indent : F)
    (kwargs : gmap string F) (self : t) :
  __init__ tgt depth0 separator_indent kwargs = inr self →
  shapely.mkLineString (contour_points self) = inr (contour_line self)
  ∧ shapely.mkPolygon (contour_line self) = inr (cross_section self)
  ∧ ∃ outer, tgt (outer_kwargs depth0 kwargs) = inr outer
             ∧ depth self = GenericElongationGroove.depth outer.
Proof.
  intros (Houter & _ & _ & _ & Hline & Hsection & _)%init_inv.
  repeat split; [done..|]. by exists (_outer_groove self).
Qed.

End construction.

(** ** Further properties of [__attrs__] *)

Section summary.
Context {F E : Type} `{scalar.ops F} `{shapely.geometry F E}.

Import SlittingGroove.

(** [__attrs__] returns a dictionary exactly when the base class supplies
    both [separator_indent] and [pad_angle]; with the first one supplied
    and the second one missing it raises [AttributeError] for
    [pad_angle]. *)
Theorem attrs_succeeds_iff (base_attrs : string → option value) (self : t) :
  ((∃ items, __attrs__ (E := E) base_attrs self = inr items)
   ↔ is_Some (base_attrs "separator_indent") ∧ is_Some (base_attrs "pad_angle"))
  ∧ (is_Some (base_attrs "separator_indent") →
     base_attrs "pad_angle" = None →
     __attrs__ (E := E) base_attrs self = inl (AttributeError "pad_angle")).
Proof.
  destruct (getattr_own (E := E) base_attrs self) as (Hd & Hu & Hc & Hl).
  destruct (getattr_inherited (E := E) base_attrs self) as (Hs & Hp).
  assert (∀ si, base_attrs "separator_indent" = Some si →
                base_attrs "pad_angle" = None →
                __attrs__ (E := E) base_attrs self
                = inl (AttributeError "pad_angle")) as Hpad.
  { intros si Hsi Hpa. rewrite Hsi in Hs. rewrite Hpa in Hp.
    unfold __attrs__, attr_names. cbn [collect_attrs].
    rewrite Hd, Hs, Hu, Hc, Hp. by run_result. }
  split; [split|].
  - intros [items Hitems].
    destruct (base_attrs "separator_indent") as [si|] eqn:Hsi.
    + destruct (base_attrs "pad_angle") as [pa|] eqn:Hpa; [by split|].
      by rewrite (Hpad si eq_refl eq_refl) in Hitems.
    + unfold __attrs__, attr_names in Hitems.
      cbn [collect_attrs] in Hitems. rewrite Hd, Hs in Hitems.
      by run_result.
  - intros [[si Hsi] [pa Hpa]]. eexists. by apply attrs_with_base.
  - intros [si Hsi] Hpa. by apply (Hpad si).
Qed.

Lemma sublist_map_filter {X Y} (g : X → Y) (f : X → bool) (l : list X) :
  map g (List.filter f l) `sublist_of` map g l.
Proof.
  induction l as [|x l IH]; simpl; [constructor|].
  destruct (f x); simpl; by constructor.
Qed.

(** What a returned dictionary holds: its keys are among the six names, in
    the order of the source; every value it lists is truthy; and
    [classifiers] is always listed, since the set contains ["slitting"]. *)
Theorem attrs_items (base_attrs : string → option value) (self : t)
    (si pa : value) :
  base_attrs "separator_indent" = Some si →
  base_attrs "pad_angle" = Some pa →
  ∃ items,
    __attrs__ (E := E) base_attrs self = inr items
    ∧ map fst items `sublist_of` attr_names
    ∧ (∀ n v, (n, v) ∈ items → truthy v = true)
    ∧ ("classifiers", VSet (classifiers self)) ∈ items.
Proof.
  intros Hsi Hpa. eexists. split; [by apply attrs_with_base|].
  split.
  { change attr_names with
      (map fst [("depth", VFloat (depth self)); ("separator_indent", si);
                ("usable_width", VFloat (usable_width self));
                ("classifiers", VSet (classifiers self)); ("pad_angle", pa);
                ("contour_line", VLineString (contour_line self))]).
    apply sublist_map_filter. }
  split.
  - by intros n v [_ Hv]%list_elem_of_In%filter_In.
  - apply list_elem_of_In, filter_In. split.
    + simpl. tauto.
    + cbn [snd truthy]. apply bool_decide_eq_true_2. unfold classifiers.
      intros Hempty.
      assert ("slitting" ∈ ({["slitting"]} ∪ _classifiers self : gset string))
        as Hin by (apply elem_of_union_l; by apply elem_of_singleton).
      rewrite Hempty in Hin. by apply not_elem_of_empty in Hin.
Qed.

End summary.

(** ** Further properties in exact arithmetic *)

Section exact_extras.
Context {F E : Type} `{scalar.exact F} `{shapely.geometry F E}.

Import SlittingGroove.

Add Ring scalar_ring_extras : scalar.ring_laws.

(** [width] and [usable_width] grow by the same [2 * z_pass] over the outer
    groove: their difference is that of the outer groove's [2 * z1] and its
    usable width. *)
Theorem width_minus_usable_width (self : t) :
  scalar.sub (width self) (usable_width self)
  = scalar.sub
      (scalar.mul scalar.two (GenericElongationGroove.z1 (_outer_groove self)))
      (GenericElongationGroove.usable_width (_outer_groove self)).
Proof. unfold width, usable_width, scalar.two. ring. Qed.

(** When [z_pass] is not positive every query reads the outer groove. *)
Theorem local_depth_without_inner_zone (self : t) (z : F) :
  scalar.leb (z_pass self) scalar.zero = true →
  local_depth self z
  = GenericElongationGroove.local_depth (_outer_groove self) (scalar.abs z).
Proof.
  intros Hzp. rewrite local_depth_unfold. unfold depth_at, scalar.geb.
  rewrite abs_abs.
  by rewrite (scalar.leb_trans _ _ _ Hzp (abs_nonneg z)).
Qed.

Lemma add_cancel_r (x y z : F) : scalar.add x z = scalar.add y z → x = y.
Proof.
  intros Heq.
  replace x with (scalar.add (scalar.add x z) (scalar.opp z)) by ring.
  rewrite Heq. ring.
Qed.

Lemma ltb_opp_flip (x y : F) :
  scalar.ltb (scalar.opp y) (scalar.opp x) = scalar.ltb x y.
Proof.
  rewrite <- (ltb_add_cancel (scalar.opp y) (scalar.opp x) (scalar.add x y)).
  by replace (scalar.add (scalar.opp y) (scalar.add x y)) with x by ring;
    replace (scalar.add (scalar.opp x) (scalar.add x y)) with y by ring.
Qed.

Lemma ltb_opp_zero (x : F) :
  scalar.ltb (scalar.opp x) scalar.zero = scalar.ltb scalar.zero x.
Proof. by rewrite <- (ltb_opp_flip scalar.zero x), opp_zero. Qed.

Lemma sorted_increasing (l : list (F * F)) :
  StronglySorted Spec.left_of l → Spec.increasing (np.col0 l) = true.
Proof.
  unfold np.col0. induction 1 as [|p l Hl IH Hp]; [done|].
  destruct l as [|q l]; [done|]. simpl in *. rewrite IH, andb_true_r.
  by apply Forall_cons in Hp as [Hpq _].
Qed.

(** The mirror image of a sorted list, read backwards, is sorted. *)
Lemma mirror_rev_sorted (l : list (F * F)) :
  StronglySorted Spec.left_of l →
  StronglySorted Spec.left_of (rev (map Spec.mirror l)).
Proof.
  induction 1 as [|p l Hl IH Hp]; [constructor|]. simpl.
  apply StronglySorted_app_2; [|done|by repeat constructor].
  intros x y (q & <- & Hq)%list_elem_of_In%in_rev%in_map_iff ->%list_elem_of_singleton.
  rewrite Forall_forall in Hp. apply list_elem_of_In, Hp in Hq.
  unfold Spec.left_of, Spec.mirror in *. simpl.
  by rewrite !negate_opp, ltb_opp_flip.
Qed.

(** The right side of two sorted contours is sorted: what is left of the
    inner part ends before [z_pass], where the outer part begins. *)
Lemma right_side_sorted (zp si : F) (inner outer : list (F * F)) :
  StronglySorted Spec.left_of inner →
  StronglySorted Spec.left_of outer →
  StronglySorted Spec.left_of (Spec.rightSide zp si inner outer).
Proof.
  intros Hinner Houter.
  assert (StronglySorted Spec.left_of (Spec.innerRightSide zp si inner)) as Hsi.
  { apply StronglySorted_map; [apply shift_left_of|].
    by apply StronglySorted_list_filter. }
  assert (StronglySorted Spec.left_of (Spec.outerRightSide zp outer)) as Hso.
  { apply StronglySorted_map; [apply shift_z_left_of|].
    by apply StronglySorted_list_filter. }
  assert (∀ y, y ∈ Spec.outerRightSide zp outer → scalar.leb zp (fst y) = true)
    as Hout.
  { unfold Spec.outerRightSide.
    intros y (q & <- & [_ Hq]%filter_In)%list_elem_of_In%in_map_iff.
    unfold scalar.geb in Hq. simpl.
    by rewrite <- (add_zero_l zp) at 1; rewrite leb_add_cancel. }
  assert (∀ x, x ∈ Spec.innerRightSide zp si inner → scalar.leb (fst x) zp = true)
    as Hin.
  { unfold Spec.innerRightSide.
    intros x (q & <- & [_ Hq]%filter_In)%list_elem_of_In%in_map_iff. simpl.
    by rewrite <- (add_zero_l zp) at 2; rewrite leb_add_cancel. }
  unfold Spec.rightSide.
  destruct (Spec.innerRightSide zp si inner) as [|x0 more] eqn:Hirs; [done|].
  destruct (exists_last (l := x0 :: more)) as (front & l & Hfront); [done|].
  rewrite Hfront in *. rewrite removelast_last.
  apply StronglySorted_app_2; [|by eapply StronglySorted_app_1_l|done].
  intros x y Hx Hy. unfold Spec.left_of.
  eapply ltb_leb_trans.
  - eapply (StronglySorted_app_1_elem_of _ _ _ x l Hsi); [done|].
    by apply list_elem_of_singleton.
  - eapply scalar.leb_trans; [|by apply Hout].
    apply Hin, elem_of_app. right. by apply list_elem_of_singleton.
Qed.

(** The contour keeps the order of its sources: when both groove contours
    are strictly increasing in [z] and the inner contour starts at
    [z <= 0], the contour of a constructed instance is strictly increasing
    in [z]. *)
Theorem contour_increasing (tgt : template) (depth separator_indent : F)
    (kwargs : gmap string F) (self : t) (p0 : F * F) :
  __init__ tgt depth separator_indent kwargs = inr self →
  Spec.increasing
    (np.col0 (GenericElongationGroove.contour_points (_inner_groove self))) = true →
  Spec.increasing
    (np.col0 (GenericElongationGroove.contour_points (_outer_groove self))) = true →
  head (GenericElongationGroove.contour_points (_inner_groove self)) = Some p0 →
  scalar.leb (fst p0) scalar.zero = true →
  Spec.increasing (np.col0 (contour_points self)) = true.
Proof.
  intros Hinit Hinner%increasing_sorted Houter%increasing_sorted Hhead Hp0.
  rewrite (contour_of_init _ _ _ _ _ Hinit).
  apply init_inv in Hinit as (_ & _ & Hzp & _).
  apply compute_z_pass_inv in Hzp as (p0' & rest & Hcp & Hzp).
  rewrite Hcp in *. simpl in Hhead. simplify_eq.
  apply sorted_increasing.
  pose proof (right_side_sorted (z_pass self) separator_indent _ _ Hinner Houter)
    as Hsorted.
  assert (∀ q, q ∈ Spec.rightSide (z_pass self) separator_indent (p0 :: rest)
                     (GenericElongationGroove.contour_points (_outer_groove self)) →
               scalar.leb scalar.zero (fst q) = true) as Hnonneg.
  { unfold Spec.rightSide. intros q [Hq|Hq]%elem_of_app.
    - apply (inner_right_side_nonneg separator_indent p0 rest); [done|].
      rewrite <- Hzp. by apply list_elem_of_In, In_removelast, list_elem_of_In.
    - eapply outer_right_side_nonneg; [|done]. by rewrite Hzp, leb_opp. }
  destruct (Spec.rightSide _ _ _ _) as [|h t]; [constructor|].
  unfold Spec.compositeContour, Spec.leftSide. simpl tail.
  apply StronglySorted_cons in Hsorted as Hht. destruct Hht as [Hh Ht].
  apply StronglySorted_app_2; [|by apply mirror_rev_sorted|done].
  intros x y (q & <- & Hq)%list_elem_of_In%in_rev%in_map_iff Hy.
  rewrite Forall_forall in Hh. apply list_elem_of_In in Hq.
  unfold Spec.left_of, Spec.mirror. simpl. rewrite negate_opp.
  eapply ltb_leb_trans; [|by apply Hnonneg].
  rewrite ltb_opp_zero.
  eapply leb_ltb_trans; [|by apply Hh]. apply Hnonneg. by left.
Qed.

(** The two parts can only meet on the axis: when the translated last
    inner point is the translated first outer point, both source points
    have [z = 0], the outer one lies [separator_indent] above the inner
    one, and the junction is at [z = z_pass]. *)
Theorem seam_on_axis (inner outer : GenericElongationGroove.t F)
    (zp si : F) (J : F * F) :
  last (inner_right_side inner zp si) = Some J →
  head (outer_right_side outer zp) = Some J →
  ∃ qi qo,
    qi ∈ GenericElongationGroove.contour_points inner
    ∧ qo ∈ GenericElongationGroove.contour_points outer
    ∧ fst qi = scalar.zero ∧ fst qo = scalar.zero
    ∧ snd qo = scalar.add (snd qi) si
    ∧ J = (zp, snd qo).
Proof.
  rewrite inner_right_side_spec, outer_right_side_spec.
  unfold Spec.innerRightSide, Spec.outerRightSide.
  intros (qi & HJi & [Hqi Hle]%filter_In)%last_Some_elem_of%list_elem_of_In%in_map_iff
         (qo & HJo & [Hqo Hge]%filter_In)%head_Some_elem_of%list_elem_of_In%in_map_iff.
  rewrite <- HJo in HJi |- *. clear HJo.
  unfold Spec.shift_y, Spec.shift_z, scalar.geb in *. simpl in *.
  injection HJi as Hz Hy. apply add_cancel_r in Hz.
  assert (fst qo = scalar.zero) as Hqo0.
  { apply scalar.leb_antisym; [by rewrite <- Hz|done]. }
  exists qi, qo. rewrite !list_elem_of_In.
  repeat split; try done.
  - by rewrite Hz.
  - by rewrite Hqo0, add_zero_l.
Qed.

End exact_extras.

(** ** The claims on the executable instance *)

(** A point that occurs once occurs at one index only. *)
Lemma occurs_once_index {F : Type} (p : F * F) (c : list (F * F)) (i j : nat) :
  Spec.occurs_once p c → c !! i = Some p → c !! j = Some p → i = j.
Proof.
  intros (before & after & -> & Hb & Ha).
  assert (∀ k, (before ++ p :: after) !! k = Some p → k = length before) as Hk.
  { intros k Hk. destruct (Nat.lt_trichotomy k (length before)) as [Hlt|[->|Hgt]].
    - rewrite lookup_app_l in Hk by done.
      destruct Hb. by eapply list_elem_of_lookup_2.
    - done.
    - rewrite lookup_app_r in Hk by lia.
      destruct (k - length before) as [|k'] eqn:Hk'; [lia|]. simpl in Hk.
      destruct Ha. by eapply list_elem_of_lookup_2. }
  intros Hi Hj. by rewrite (Hk i Hi), (Hk j Hj).
Qed.

#[global] Instance Z_exact : scalar.exact Z.
Proof.
  split; simpl.
  - exact InitialRing.Zth.
  - intros x y ?%Z.leb_le ?%Z.leb_le. lia.
  - intros x y z ?%Z.leb_le ?%Z.leb_le. apply Z.leb_le. lia.
  - intros x y. rewrite !Z.leb_le. lia.
  - intros x y z ?%Z.leb_le. apply Z.leb_le. lia.
  - intros x y. apply Z.ltb_antisym.
  - intros x. destruct (Z.leb_spec 0 x); lia.
Qed.

Import Zmodel.

Local Open Scope Z_scope.

(** [SlittingGroove(vee, depth=10, separator_indent=2)]: the contour is
    assembled from the two V-shaped grooves as specified. *)
Lemma contour_construction_witness :
  SlittingGroove.__init__ vee 10 2 ∅ = inr example
  ∧ ∃ outer inner p0 rest,
      vee (SlittingGroove.outer_kwargs 10 ∅) = inr outer
      ∧ vee (SlittingGroove.inner_kwargs 10 2 ∅) = inr inner
      ∧ GenericElongationGroove.contour_points inner = p0 :: rest
      ∧ SlittingGroove.z_pass example = - fst p0
      ∧ let rightSide :=
          Spec.rightSide (SlittingGroove.z_pass example) 2
            (GenericElongationGroove.contour_points inner)
            (GenericElongationGroove.contour_points outer) in
        SlittingGroove.contour_points example
        = rev (Spec.leftSide rightSide) ++ rightSide.
Proof.
  assert (SlittingGroove.__init__ vee 10 2 ∅ = inr example) as Hinit
    by (vm_compute; reflexivity).
  split; [exact Hinit|].
  exact (contour_construction vee 10 2 ∅ example Hinit).
Defined.

(** On that instance a query inside the pass line reads the inner groove
    and a query on the pass line reads the outer groove. *)
Lemma local_depth_two_branches_witness :
  SlittingGroove.local_depth example (-2)
  = GenericElongationGroove.local_depth (vee_groove 8) 2
  ∧ SlittingGroove.local_depth example 3
    = GenericElongationGroove.local_depth (vee_groove 10) 3.
Proof.
  split.
  - exact (proj1 (local_depth_two_branches (E := string) example (-2))
             eq_refl).
  - exact (proj1 (proj2 (local_depth_two_branches (E := string) example 3))
             eq_refl).
Defined.

Lemma local_depth_even_witness :
  SlittingGroove.local_depth example (- 2) = SlittingGroove.local_depth example 2.
Proof. exact (local_depth_even (E := string) example 2). Defined.

Lemma usable_width_relation_witness :
  SlittingGroove.__init__ vee 10 2 ∅ = inr example
  ∧ ∃ outer inner p0 rest,
      vee (SlittingGroove.outer_kwargs 10 ∅) = inr outer
      ∧ vee (SlittingGroove.inner_kwargs 10 2 ∅) = inr inner
      ∧ GenericElongationGroove.contour_points inner = p0 :: rest
      ∧ SlittingGroove.usable_width example
        = GenericElongationGroove.usable_width outer
          + 2 * SlittingGroove.z_pass example
      ∧ ((fst p0 <=? 0) = true → (0 <=? SlittingGroove.z_pass example) = true).
Proof.
  assert (SlittingGroove.__init__ vee 10 2 ∅ = inr example) as Hinit
    by (vm_compute; reflexivity).
  split; [exact Hinit|].
  exact (usable_width_relation vee 10 2 ∅ example Hinit).
Defined.

Lemma classifiers_union_witness :
  SlittingGroove.__init__ vee 10 2 ∅ = inr example
  ∧ ∃ outer,
      vee (SlittingGroove.outer_kwargs 10 ∅) = inr outer
      ∧ SlittingGroove.classifiers example
        = {["slitting"]} ∪ GenericElongationGroove.classifiers outer
      ∧ "slitting" ∈ SlittingGroove.classifiers example
      ∧ GenericElongationGroove.classifiers outer
        ⊆ SlittingGroove.classifiers example.
Proof.
  assert (SlittingGroove.__init__ vee 10 2 ∅ = inr example) as Hinit
    by (vm_compute; reflexivity).
  split; [exact Hinit|].
  exact (classifiers_union vee 10 2 ∅ example Hinit).
Defined.

(** [separator_indent=6] leaves the inner groove a depth of 4, which [vee]
    rejects; [__init__] fails with that exception. *)
Lemma init_propagates_errors_witness :
  vee (SlittingGroove.inner_kwargs 10 6 ∅) = inl "depth out of range"
  ∧ SlittingGroove.__init__ vee 10 6 ∅ = inl (Raised "depth out of range").
Proof.
  assert (vee (SlittingGroove.inner_kwargs 10 6 ∅) = inl "depth out of range")
    as Hinner by (vm_compute; reflexivity).
  split; [exact Hinner|].
  apply (proj1 (init_propagates_errors vee 10 6 ∅ (Raised "depth out of range"))).
  apply (Spec.inner_template_raises vee 10 6 ∅ (vee_groove 10));
    [vm_compute; reflexivity|exact Hinner].
Defined.

(** With nothing inherited under the name, [__attrs__] of the example
    raises. *)
Lemma attrs_raises_attribute_error_witness :
  SlittingGroove.__attrs__ (E := string) (λ _, None) example
  = inl (AttributeError "separator_indent").
Proof.
  apply (attrs_raises_attribute_error (E := string) (λ _, None) example).
  reflexivity.
Defined.

(** C3, as stated, fails: the inner contour [(-3, 0), (3, 0)] starts at
    [z <= 0], but the contour [(-8, 0), (3, 10), (8, 0)] of the instance is
    not symmetric, its middle point being off the axis. *)
Lemma contour_symmetric_counterexample :
  SlittingGroove.__init__ (prepared lopsided_outer lopsided_inner) 10 2 ∅
  = inr lopsided
  ∧ (∃ p0 rest,
       GenericElongationGroove.contour_points
         (SlittingGroove._inner_groove lopsided) = p0 :: rest
       ∧ scalar.leb (fst p0) 0 = true)
  ∧ ¬ Spec.symmetric (SlittingGroove.contour_points lopsided).
Proof.
  split; [vm_compute; reflexivity|]. split.
  - by exists (-3, 0), [(3, 0)].
  - intros Hsym. specialize (Hsym 1%nat (3, 10) eq_refl). by vm_compute in Hsym.
Qed.

Lemma contour_symmetric_witness :
  SlittingGroove.__init__ vee 10 2 ∅ = inr example
  ∧ Spec.symmetric (SlittingGroove.contour_points example)
  ∧ length (SlittingGroove.contour_points example) = 5%nat
  ∧ ∃ y, SlittingGroove.contour_points example !! 2%nat = Some (0, y).
Proof.
  assert (SlittingGroove.__init__ vee 10 2 ∅ = inr example) as Hinit
    by (vm_compute; reflexivity).
  split; [exact Hinit|].
  apply (contour_symmetric vee 10 2 ∅ example (-3, 0) [(0, 8); (3, 0)] Hinit).
  - reflexivity.
  - reflexivity.
  - simpl. lia.
Defined.


Lemma seam_point_once_witness :
  SlittingGroove.__init__ vee 10 2 ∅ = inr example
  ∧ Spec.occurs_once (3, 10) (SlittingGroove.contour_points example).
Proof.
  assert (SlittingGroove.__init__ vee 10 2 ∅ = inr example) as Hinit
    by (vm_compute; reflexivity).
  split; [exact Hinit|].
  apply (seam_point_once vee 10 2 ∅ example (3, 10) Hinit); reflexivity.
Defined.

(** ** The further properties on the executable instances *)

Lemma template_kwargs_witness :
  SlittingGroove.outer_kwargs 10 {["pad" := 1; "r1" := 4]} !! "r1" = Some 4
  ∧ SlittingGroove.inner_kwargs 10 2 {["pad" := 1; "r1" := 4]} !! "r1" = Some 4
  ∧ SlittingGroove.inner_kwargs 10 2 {["pad" := 1; "r1" := 4]} !! "pad" = Some 0.
Proof.
  pose proof (template_kwargs 10 2 ({["pad" := 1; "r1" := 4]} : gmap string Z))
    as (_ & _ & Hpad & _ & _ & Hrest).
  destruct (Hrest "r1") as [Houter Hinner]; [done|].
  split; [|split].
  - rewrite Houter. reflexivity.
  - rewrite Hinner by done. reflexivity.
  - exact Hpad.
Defined.

Lemma contour_length_witness :
  SlittingGroove.__init__ vee 10 2 ∅ = inr example
  ∧ length (SlittingGroove.contour_points example) = 5%nat.
Proof.
  assert (SlittingGroove.__init__ vee 10 2 ∅ = inr example) as Hinit
    by (vm_compute; reflexivity).
  split; [exact Hinit|].
  exact (contour_length vee 10 2 ∅ example Hinit).
Defined.

(** On binary64 numbers, and on an instance that is not symmetric. *)
Lemma contour_left_mirrors_right_witness :
  SlittingGroove.__init__ Float64.vee Float64.ten Float64.two ∅
  = inr Float64.example
  ∧ SlittingGroove.contour_points Float64.example !! 1%nat
    = Spec.mirror <$> SlittingGroove.contour_points Float64.example !! 3%nat
  ∧ SlittingGroove.contour_points lopsided !! 0%nat
    = Spec.mirror <$> SlittingGroove.contour_points lopsided !! 2%nat.
Proof.
  assert (SlittingGroove.__init__ Float64.vee Float64.ten Float64.two ∅
          = inr Float64.example) as Hfloat by (vm_compute; reflexivity).
  assert (SlittingGroove.__init__ (prepared lopsided_outer lopsided_inner) 10 2 ∅
          = inr lopsided) as Hinit by (vm_compute; reflexivity).
  split; [exact Hfloat|]. split.
  - apply (contour_left_mirrors_right Float64.vee Float64.ten Float64.two ∅
             Float64.example 1%nat Hfloat).
    simpl. lia.
  - apply (contour_left_mirrors_right (prepared lopsided_outer lopsided_inner)
             10 2 ∅ lopsided 0%nat Hinit).
    simpl. lia.
Defined.

Lemma contour_points_origin_witness :
  ∃ q b,
    (q ∈ GenericElongationGroove.contour_points (SlittingGroove._inner_groove example)
     ∧ (fst q <=? 0) = true
     ∧ b = (fst q + SlittingGroove.z_pass example, snd q + 2)
     ∨ q ∈ GenericElongationGroove.contour_points (SlittingGroove._outer_groove example)
       ∧ (0 <=? fst q) = true
       ∧ b = (fst q + SlittingGroove.z_pass example, snd q))
    ∧ ((-3, 10) = b ∨ (-3, 10) = (scalar.negate (fst b), snd b)).
Proof.
  assert (SlittingGroove.__init__ vee 10 2 ∅ = inr example) as Hinit
    by (vm_compute; reflexivity).
  assert ((-3, 10) ∈ SlittingGroove.contour_points example) as Hin
    by (apply list_elem_of_In; simpl; tauto).
  exact (contour_points_origin vee 10 2 ∅ example (-3, 10) Hinit Hin).
Defined.


(** [local_depth(nan)] on binary64 numbers is [0.0]. *)
Lemma local_depth_default_witness :
  SlittingGroove.local_depth Float64.example Float64.not_a_number
  = scalar.zero
  ∧ SlittingGroove.local_depth_array Float64.example [Float64.not_a_number]
    = [scalar.zero].
Proof.
  exact (local_depth_default (E := string) Float64.example
           Float64.not_a_number eq_refl eq_refl).
Defined.

Lemma attrs_succeeds_iff_witness :
  ∃ items,
    SlittingGroove.__attrs__ (E := string)
      (λ _, Some (SlittingGroove.VOther false)) example = inr items.
Proof.
  apply (proj1 (attrs_succeeds_iff (E := string)
                  (λ _, Some (SlittingGroove.VOther false)) example)).
  split; eexists; reflexivity.
Defined.

Lemma attrs_items_witness :
  ∃ items,
    SlittingGroove.__attrs__ (E := string)
      (λ _, Some (SlittingGroove.VOther false)) example = inr items
    ∧ map fst items `sublist_of` SlittingGroove.attr_names
    ∧ (∀ n v, (n, v) ∈ items → SlittingGroove.truthy v = true)
    ∧ ("classifiers", SlittingGroove.VSet (SlittingGroove.classifiers example))
      ∈ items.
Proof.
  exact (attrs_items (E := string) (λ _, Some (SlittingGroove.VOther false))
           example (SlittingGroove.VOther false) (SlittingGroove.VOther false)
           eq_refl eq_refl).
Defined.

Lemma width_minus_usable_width_witness :
  SlittingGroove.width example - SlittingGroove.usable_width example
  = 2 * GenericElongationGroove.z1 (vee_groove 10)
    - GenericElongationGroove.usable_width (vee_groove 10).
Proof. exact (width_minus_usable_width (E := string) example). Defined.

Lemma local_depth_without_inner_zone_witness :
  SlittingGroove.__init__ (prepared lopsided_outer half_inner) 10 2 ∅
  = inr unshifted
  ∧ SlittingGroove.local_depth unshifted (-4)
    = GenericElongationGroove.local_depth lopsided_outer 4.
Proof.
  split; [vm_compute; reflexivity|].
  exact (local_depth_without_inner_zone (E := string) unshifted (-4) eq_refl).
Defined.

Lemma contour_increasing_witness :
  SlittingGroove.__init__ vee 10 2 ∅ = inr example
  ∧ Spec.increasing (np.col0 (SlittingGroove.contour_points example)) = true.
Proof.
  assert (SlittingGroove.__init__ vee 10 2 ∅ = inr example) as Hinit
    by (vm_compute; reflexivity).
  split; [exact Hinit|].
  exact (contour_increasing vee 10 2 ∅ example (-3, 0) Hinit
           eq_refl eq_refl eq_refl eq_refl).
Defined.

Lemma seam_on_axis_witness :
  ∃ qi qo,
    qi ∈ GenericElongationGroove.contour_points (vee_groove 8)
    ∧ qo ∈ GenericElongationGroove.contour_points (vee_groove 10)
    ∧ fst qi = 0 ∧ fst qo = 0
    ∧ snd qo = snd qi + 2
    ∧ (3, 10) = (3, snd qo).
Proof.
  exact (seam_on_axis (vee_groove 8) (vee_groove 10) 3 2 (3, 10)
           eq_refl eq_refl).
Defined.

Lemma cached_geometry_witness :
  SlittingGroove.__init__ vee 10 2 ∅ = inr example
  ∧ shapely.mkLineString (SlittingGroove.contour_points example)
    = inr (SlittingGroove.contour_line example)
  ∧ shapely.mkPolygon (SlittingGroove.contour_line example)
    = inr (SlittingGroove.cross_section example)
  ∧ ∃ outer, vee (SlittingGroove.outer_kwargs 10 ∅) = inr outer
             ∧ SlittingGroove.depth example = GenericElongationGroove.depth outer.
Proof.
  assert (SlittingGroove.__init__ vee 10 2 ∅ = inr example) as Hinit
    by (vm_compute; reflexivity).
  split; [exact Hinit|].
  exact (cached_geometry vee 10 2 ∅ example Hinit).
Defined.

(** ** The seam on the executable instances *)


(** On binary64 numbers the order of the groove contours is not enough:
    both contours below are strictly increasing in [z] and the two parts
    meet in [(1, 10)], but the translation rounds [-2^-60 + 1] to [1], the
    right side is no longer strictly increasing, and the contour holds the
    junction at the indices 4 and 5. *)
Lemma seam_rounding_binary64 :
  Spec.increasing
    (np.col0 (GenericElongationGroove.contour_points Float64.close_inner)) = true
  ∧ Spec.increasing
      (np.col0 (GenericElongationGroove.contour_points Float64.close_outer)) = true
  ∧ SlittingGroove.__init__ (Float64.prepared Float64.close_outer Float64.close_inner)
      Float64.ten Float64.two ∅ = inr Float64.merged
  ∧ last (SlittingGroove.inner_right_side Float64.close_inner
            (SlittingGroove.z_pass Float64.merged) Float64.two)
    = Some Float64.junction
  ∧ head (SlittingGroove.outer_right_side Float64.close_outer
            (SlittingGroove.z_pass Float64.merged))
    = Some Float64.junction
  ∧ Spec.increasing
      (np.col0 (SlittingGroove.right_side Float64.close_outer Float64.close_inner
                  (SlittingGroove.z_pass Float64.merged) Float64.two)) = false
  ∧ ¬ Spec.occurs_once Float64.junction
        (SlittingGroove.contour_points Float64.merged).
Proof.
  repeat (split; [vm_compute; reflexivity|]).
  intros Honce.
  by pose proof (occurs_once_index _ _ 4%nat 5%nat Honce eq_refl eq_refl).
Qed.

(** The order laws on binary64 numbers of every kind (not a number, the
    infinities, both zeros, subnormal and large numbers), for all triples. *)
Lemma order_laws_binary64_samples :
  Float64.order_laws_on Float64.samples = true.
Proof. vm_compute. reflexivity. Qed.
